(** * MegatronTrainer: iteration budgets, the cyclic epoch iterator, the
      step interceptor and the evaluation loop

    A shallow embedding of [swift/megatron/train/trainers/trainer.py].
    Python integers are [Z] ([//] is floor division, which is [Z.div]),
    attributes that may hold [None] are [option]s, dictionaries are
    [gmap]s, and raised exceptions are values of [py_exn] returned next to
    the state the code had reached when it raised. *)

From Stdlib Require Import ZArith String List Lia.
From stdpp Require Import base option gmap strings list fin_maps.

(** ** Python exceptions and results *)

Inductive py_exn : Type :=
| ValueError (msg : string)
| ZeroDivisionError
| TypeError
| StopIteration
| UnboundLocalError
| EngineFailure (tag : nat).

(** A computation either raises or returns a value. *)
Definition result (A : Type) : Type := (py_exn + A)%type.

Definition ret {A} (a : A) : result A := inr a.
Definition raise {A} (e : py_exn) : result A := inl e.

Definition rbind {A B} (m : result A) (k : A -> result B) : result B :=
  match m with
  | inl e => inl e
  | inr a => k a
  end.

Notation "x <-- m ;; k" := (rbind m (fun x => k))
  (at level 100, m at next level, right associativity).

(** [a // b] on Python integers. *)
Definition floordiv (a b : Z) : result Z :=
  if decide (b = 0%Z) then raise ZeroDivisionError else ret (a / b)%Z.

(** [a * b] where [b] is an attribute that may be [None]. *)
Definition mul_opt (a : Z) (b : option Z) : result Z :=
  match b with
  | Some b => ret (a * b)%Z
  | None => raise TypeError
  end.

(** Truthiness of an optional integer: [None] and [0] are false. *)
Definition truthy (o : option Z) : bool :=
  match o with
  | Some z => negb (z =? 0)%Z
  | None => false
  end.

(** ** Startup derivation of the iteration budgets ([_get_iters]) *)

Module GetIters.
Local Open Scope Z_scope.

Record Args : Type := mkArgs {
  micro_batch_size : Z;
  global_batch_size : Z;
  train_iters : option Z;
  eval_iters : Z;
  max_epochs : option Z
}.

Definition set_train_iters (v : Z) (a : Args) : Args :=
  mkArgs (micro_batch_size a) (global_batch_size a) (Some v)
         (eval_iters a) (max_epochs a).

Definition set_eval_iters (v : Z) (a : Args) : Args :=
  mkArgs (micro_batch_size a) (global_batch_size a) (train_iters a)
         v (max_epochs a).

(** A dataset either has [__len__] ([Some n]) or is a streaming dataset
    ([None]). *)
Definition dataset : Type := option N.

Definition train_msg : string :=
  "You are using a streaming training dataset. Please explicitly specify `--train_iters`.".
Definition val_msg : string :=
  "You are using a streaming validation dataset. Please explicitly specify `--eval_iters`.".

(** Lines 39-45. *)
Definition derive_train_iters (train_dataset : dataset) (step_batch_size : Z)
    (args : Args) : Args * result unit :=
  match train_iters args with
  | Some _ => (args, ret tt)
  | None =>
      match train_dataset with
      | Some n =>
          let r :=
            q <-- floordiv (Z.of_N n) step_batch_size ;;
            let dataset_sample := q * step_batch_size in
            p <-- mul_opt dataset_sample (max_epochs args) ;;
            t <-- floordiv p (global_batch_size args) ;;
            ret (t + 1) in
          match r with
          | inl e => (args, raise e)
          | inr v => (set_train_iters v args, ret tt)
          end
      | None => (args, raise (ValueError train_msg))
      end
  end.

(** Lines 46-52; [val_dataset = None] is Python's [None]. *)
Definition derive_eval_iters (val_dataset : option dataset) (step_batch_size : Z)
    (args : Args) : Args * result unit :=
  match val_dataset with
  | Some ds =>
      if decide (eval_iters args < 0) then
        match ds with
        | Some n =>
            let r :=
              q <-- floordiv (Z.of_N n) step_batch_size ;;
              let dataset_sample := q * step_batch_size in
              t <-- floordiv dataset_sample (global_batch_size args) ;;
              ret (Z.max t 1) in
            match r with
            | inl e => (args, raise e)
            | inr v => (set_eval_iters v args, ret tt)
            end
        | None => (args, raise (ValueError val_msg))
        end
      else (args, ret tt)
  | None => (args, ret tt)
  end.

(** The patched [initialize_megatron], after the original initializer has
    returned: [args] is what [get_args()] gives and [data_parallel_size]
    what [mpu.get_data_parallel_world_size()] gives. *)
Definition initialize_megatron (train_dataset : dataset)
    (val_dataset : option dataset) (data_parallel_size : Z) (args : Args)
    : Args * result unit :=
  let step_batch_size := micro_batch_size args * data_parallel_size in
  match derive_train_iters train_dataset step_batch_size args with
  | (args1, inl e) => (args1, raise e)
  | (args1, inr _) => derive_eval_iters val_dataset step_batch_size args1
  end.

(** Which function [training.initialize_megatron] is bound to. *)
Inductive binding : Type := Origin | Patched.

Section Patch.
(** Not part of this repository, and taken as parameters: the state of the
    process that Megatron's initializer sets up ([World]: parsed
    arguments, process groups, whatever else it does), the original
    [training.initialize_megatron] itself, which may raise, the accessors
    [get_args()] and [mpu.get_data_parallel_world_size()] on the state it
    leaves, and Megatron's [pretrain]. Nothing is assumed about them. *)
Variable World : Type.
Variable Res : Type.
Variable origin_initialize_megatron : World -> World * result Res.
Variable get_args : World -> Args.
Variable set_args : Args -> World -> World.
Variable get_data_parallel_world_size : World -> Z.

(** Lines 34-53, the closure that replaces [training.initialize_megatron]:
    the original initializer runs first (line 35); only on the state it
    leaves are the budgets derived, in place on [args]; its result is
    returned. *)
Definition patched_initialize_megatron (train_dataset : dataset)
    (val_dataset : option dataset) (w : World) : World * result Res :=
  match origin_initialize_megatron w with
  | (w1, inl e) => (w1, raise e)
  | (w1, inr res) =>
      let args := get_args w1 in
      let data_parallel_size := get_data_parallel_world_size w1 in
      match initialize_megatron train_dataset val_dataset data_parallel_size args with
      | (args1, inl e) => (set_args args1 w1, raise e)
      | (args1, inr _) => (set_args args1 w1, ret res)
      end
  end.

(** [with self._get_iters(train_dataset, val_dataset): body]. While the
    body runs, [training.initialize_megatron] is the patched closure; the
    [finally] clause rebinds the original whatever the body did. The body
    is handed the function the name is bound to. *)
Definition _get_iters {R} (train_dataset : dataset) (val_dataset : option dataset)
    (body : (World -> World * result Res) -> World -> World * result R)
    (w : World) : World * result R * binding :=
  let bound := patched_initialize_megatron train_dataset val_dataset in
  (body bound w, Origin).

(** Lines 249-261: [pretrain] runs inside [_get_iters]. The datasets
    provider and the data-collator patch do not touch the budgets. *)
Variable pretrain : (World -> World * result Res) -> World -> World * result unit.

Definition train (train_dataset : dataset) (val_dataset : option dataset)
    (w : World) : World * result unit * binding :=
  _get_iters train_dataset val_dataset pretrain w.
End Patch.

Arguments patched_initialize_megatron {World Res}.
Arguments _get_iters {World Res} origin_initialize_megatron get_args set_args
  get_data_parallel_world_size {R} train_dataset val_dataset body w.
Arguments train {World Res}.

End GetIters.

(** ** The cyclic epoch iterator ([new_cyclic_iter]) *)

Module Cyclic.
Local Open Scope Z_scope.

Section Generator.
Variable A : Type.

(** [max_epochs] as read once when the generator starts, and the
    re-iterable source [iter]: every [for x in iter] walks the same
    finite sequence again. Log lines are not modelled. *)
Variable max_epochs : option Z.
Variable source : list A.

(** Control points of the generator body, each with the local [i]:
    at the head of [while True]; inside [for x in iter] with the items
    still to come; after [break], when the generator has returned. *)
Inductive gen_state : Type :=
| Head (i : Z)
| InFor (i : Z) (rest : list A)
| Done (i : Z).

Definition epoch (s : gen_state) : Z :=
  match s with
  | Head i | InFor i _ | Done i => i
  end.

Inductive action : Type :=
| Tau (s : gen_state)
| Yield (x : A) (s : gen_state)
| Stop (s : gen_state).

(** The test of line 68: [max_epochs and i >= max_epochs]. *)
Definition epochs_completed (i : Z) : bool :=
  match max_epochs with
  | Some m => negb (m =? 0) && (m <=? i)
  | None => false
  end.

(** One move of the body; [is_training] is what
    [getattr(args, 'is_training', False)] reads at that moment. *)
Definition step (is_training : bool) (s : gen_state) : action :=
  match s with
  | Head i =>
      if is_training && epochs_completed i then Stop (Done i)
      else Tau (InFor i source)
  | InFor i (x :: rest) => Yield x (InFor i rest)
  | InFor i [] => Tau (Head (i + 1))
  | Done i => Stop (Done i)
  end.

(** [next(gen)]: run the body until it yields ([Some x]) or returns
    ([None], i.e. [StopIteration] for the caller). The flag does not
    change while the body runs. Over an empty source with the flag
    false the body spins forever, hence the fuel: [None] at top level
    means that [fuel] moves were not enough. *)
Fixpoint next (fuel : nat) (is_training : bool) (s : gen_state)
    : option (option A * gen_state) :=
  match fuel with
  | O => None
  | S fuel' =>
      match step is_training s with
      | Tau s' => next fuel' is_training s'
      | Yield x s' => Some (Some x, s')
      | Stop s' => Some (None, s')
      end
  end.

(** A consumer that calls [next] up to [calls] times, the flag at the
    k-th call (counting from [from]) being [flags k], and stops at the
    first [StopIteration]. It returns the items received, whether the
    generator terminated, and the generator state. *)
Fixpoint consume (calls fuel : nat) (flags : nat -> bool) (from : nat)
    (s : gen_state) : option (list A * bool * gen_state) :=
  match calls with
  | O => Some ([], false, s)
  | S calls' =>
      match next fuel (flags from) s with
      | None => None
      | Some (None, s') => Some ([], true, s')
      | Some (Some x, s') =>
          match consume calls' fuel flags (S from) s' with
          | None => None
          | Some (xs, fin, s'') => Some (x :: xs, fin, s'')
          end
      end
  end.

(** Calling [new_cyclic_iter(iter)] runs nothing: it returns a generator
    that will start at the top of the body with [i = 0]. *)
Definition new_cyclic_iter : gen_state := Head 0.

(** [n] passes over the source, one after the other. *)
Fixpoint passes (n : nat) : list A :=
  match n with
  | O => []
  | S n' => source ++ passes n'
  end.
End Generator.

Arguments Head {A} i.
Arguments InFor {A} i rest.
Arguments Done {A} i.
Arguments Tau {A} s.
Arguments Yield {A} x s.
Arguments Stop {A} s.
Arguments epoch {A} s.
Arguments step {A} max_epochs source is_training s.
Arguments next {A} max_epochs source fuel is_training s.
Arguments consume {A} max_epochs source calls fuel flags from s.
Arguments new_cyclic_iter {A}.
Arguments passes {A} source n.

End Cyclic.

(** ** The step interceptor ([_training_context], [train_step]) *)

Module Interceptor.
Local Open Scope Z_scope.

Section Step.
(** Loss values and the payloads of the last two tuple positions are
    the engine's business. *)
Variable Loss : Type.
Variable Payload : Type.

(** The process-wide [args] as far as this code touches it: the
    attribute [is_training] may not exist yet ([None]); [rest] is
    everything else, which only the engine changes. *)
Variable Rest : Type.

Record Args : Type := mkArgs {
  is_training : option bool;
  rest : Rest
}.

(** [getattr(args, 'is_training', False)]. *)
Definition read_is_training (a : Args) : bool :=
  default false (is_training a).

Definition set_is_training (b : bool) (a : Args) : Args :=
  mkArgs (Some b) (rest a).

(** The 7-tuple a step returns, position by position. *)
Definition step_result : Type :=
  (gmap string Loss * bool * bool * bool * Z * option Payload * option Payload)%type.

(** Line 96: [{}, True, True, True, 0, None, None]. *)
Definition skip_result : step_result :=
  (∅, true, true, true, 0, None, None).

(** [with self._training_context(): body]. The flag is set before the
    body and cleared by the [finally] clause whatever the body did. *)
Definition _training_context {R} (body : Args -> Args * result R)
    (a : Args) : Args * result R :=
  let a1 := set_is_training true a in
  let '(a2, r) := body a1 in
  (set_is_training false a2, r).

(** The wrapped [training.train_step] of the engine: it may change the
    state, return a tuple or raise. [_replace_data_iterator] is the
    identity. *)
Variable _origin_train_step : Args -> Args * result step_result.

(** [try: return origin(...) except StopIteration: return skip]. *)
Definition try_step (a : Args) : Args * result step_result :=
  let '(a', r) := _origin_train_step a in
  match r with
  | inl StopIteration => (a', ret skip_result)
  | _ => (a', r)
  end.

Definition train_step (a : Args) : Args * result step_result :=
  _training_context try_step a.

(** A run of [n] consecutive calls, as the training loop makes them;
    it stops at the first call that raises. The list records what
    [getattr(args, 'is_training', False)] read just before each call. *)
Fixpoint run_steps (n : nat) (a : Args)
    : list bool * Args * result (list step_result) :=
  match n with
  | O => ([], a, ret [])
  | S n' =>
      let before := read_is_training a in
      match train_step a with
      | (a', inl e) => ([before], a', raise e)
      | (a', inr r) =>
          let '(bs, a'', rs) := run_steps n' a' in
          (before :: bs, a'', rbind rs (fun l => ret (r :: l)))
      end
  end.
End Step.

Arguments mkArgs {Rest} is_training rest.
Arguments is_training {Rest} a.
Arguments rest {Rest} a.
Arguments read_is_training {Rest} a.
Arguments set_is_training {Rest} b a.
Arguments skip_result {Loss Payload}.
Arguments _training_context {Rest R} body a.
Arguments try_step {Loss Payload Rest} _origin_train_step a.
Arguments train_step {Loss Payload Rest} _origin_train_step a.
Arguments run_steps {Loss Payload Rest} _origin_train_step n a.

End Interceptor.

(** ** The evaluation loop ([evaluate]) *)

Module Evaluate.
Local Open Scope Z_scope.

(** Timers, progress printing, the CUDA cache, [config.timers], the
    fault-tolerance hooks and the optional vision feature bank leave the
    state below untouched and are left out.

    The modes of the rerun state machine; the code names only [DISABLED]. *)
Inductive RerunMode : Type :=
| DISABLED
| VALIDATE_RESULTS
| REPORT_DETERMINISM_STATS.

(** What [model_module.eval()] and [model_module.train()] switch. *)
Inductive module_mode : Type := TrainMode | EvalMode.

(** [torch.distributed.ReduceOp], as far as the process group is asked
    for it. *)
Inductive ReduceOp : Type := SUM | MAX.

Record Args : Type := mkArgs {
  eval_iters : Z;
  global_batch_size : Z;
  micro_batch_size : Z;
  data_parallel_size : Z;
  exit_duration_in_mins : option Z
}.

(** State that outlives the call: the modules' modes, the mode of the
    rerun state machine and [args.consumed_valid_samples]. *)
Record world : Type := mkWorld {
  model : list module_mode;
  rerun : RerunMode;
  consumed_valid_samples : Z
}.

Definition with_model (m : list module_mode) (w : world) : world :=
  mkWorld m (rerun w) (consumed_valid_samples w).
Definition with_rerun (r : RerunMode) (w : world) : world :=
  mkWorld (model w) r (consumed_valid_samples w).
Definition add_consumed (n : Z) (w : world) : world :=
  mkWorld (model w) (rerun w) (consumed_valid_samples w + n).

Section Eval.
(** The numbers held by the accumulator tensors, with the operations the
    code applies to them. Nothing is assumed about the operations, so
    every sum below is the left-to-right sum the code performs. *)
Variable num : Type.
Variable zero one : num.
Variable add div : num -> num -> num.
Variable Aux : Type.

(** A reported loss value: a scalar, or a tuple/list whose first two
    components are read. *)
Inductive loss_val : Type :=
| Scalar (v : num)
| Paired (v w : num).

(** What one worker's surroundings answer: rank queries, the engine's
    forward-only pass (given the iteration number and the number of
    microbatches, the per-microbatch loss dictionaries), the local
    comparison [train_time > args.exit_duration_in_mins] at each
    iteration, and the two optional collectors. The engine and the
    collectors are calls that return: a call in which one of them raises
    is outside this model, which therefore speaks of the calls of
    [evaluate] in which they do not. *)
Record Env : Type := mkEnv {
  is_pipeline_last_stage : bool;
  is_last_rank : bool;
  forward_backward_func : Z -> Z -> list (gmap string loss_val);
  time_exceeded : Z -> bool;
  non_loss_data_func : option (list module_mode -> Aux);
  process_non_loss_data_func : bool;
  collect_non_loss_data : Aux
}.

(** The call's frame: the surrounding state and the locals
    [total_loss_dict] and [iteration]. *)
Record frame : Type := mkFrame {
  outer : world;
  total_loss_dict : gmap string (num * num);
  iteration : Z
}.

Definition add_pair (a b : num * num) : num * num :=
  (add (fst a) (fst b), add (snd a) (snd b)).

(** Lines 167-173: what a value adds to (numerator, denominator). *)
Definition contribution (val : loss_val) : num * num :=
  match val with
  | Paired v w => (v, w)
  | Scalar v => (v, one)
  end.

(** Lines 165-173 for one key. *)
Definition accumulate_key (key : string) (val : loss_val)
    (total : gmap string (num * num)) : gmap string (num * num) :=
  let total :=
    match total !! key with
    | None => <[key := (zero, zero)]> total
    | Some _ => total
    end in
  <[key := add_pair (default (zero, zero) (total !! key)) (contribution val)]> total.

(** [for key in loss_dict: ...]. *)
Definition accumulate_dict (loss_dict : gmap string loss_val)
    (total : gmap string (num * num)) : gmap string (num * num) :=
  map_fold accumulate_key total loss_dict.

(** [for loss_dict in loss_dicts: ...]. *)
Definition accumulate_dicts (loss_dicts : list (gmap string loss_val))
    (total : gmap string (num * num)) : gmap string (num * num) :=
  foldl (fun t d => accumulate_dict d t) total loss_dicts.

(** Lines 206-208. *)
Definition finalize (total : gmap string (num * num)) : gmap string num :=
  (fun nd => div (fst nd) (snd nd)) <$> total.

Variable args : Args.
Variable env : Env.

(** [torch.distributed.all_reduce] as this worker sees it: given the
    reduction asked for, the iteration in which the call is made and the
    value this worker hands over, the reduced value it reads back. *)
Variable all_reduce : ReduceOp -> Z -> Z -> Z.

(** Lines 136-175 of one iteration. *)
Definition iteration_body (eval_num_microbatches : Z) (f : frame) : frame :=
  let iteration := iteration f + 1 in
  let loss_dicts := forward_backward_func env iteration eval_num_microbatches in
  let total :=
    if is_pipeline_last_stage env
    then accumulate_dicts loss_dicts (total_loss_dict f)
    else total_loss_dict f in
  mkFrame (add_consumed (global_batch_size args) (outer f)) total iteration.

(** Lines 178-179: the tensor handed to the collective, the local
    comparison as 0 or 1. *)
Definition done_cuda (f : frame) : Z :=
  Z.b2z (time_exceeded env (iteration f)).

(** Lines 177-182: the value of [done], when the check is enabled. *)
Definition time_limit_reached (f : frame) : bool :=
  if truthy (exit_duration_in_mins args) then
    let done := all_reduce MAX (iteration f) (done_cuda f) in
    negb (done =? 0)
  else false.

(** [while iteration < args.eval_iters]; the boolean tells whether the
    loop was left through the early [return]. *)
Fixpoint eval_loop (fuel : nat) (rerun_mode : RerunMode)
    (eval_num_microbatches : Z) (f : frame) : frame * bool :=
  match fuel with
  | O => (f, false)
  | S fuel' =>
      if decide (iteration f < eval_iters args) then
        let f1 := iteration_body eval_num_microbatches f in
        if time_limit_reached f1
        then (mkFrame (with_rerun rerun_mode (outer f1))
                      (total_loss_dict f1) (iteration f1), true)
        else eval_loop fuel' rerun_mode eval_num_microbatches f1
      else (f, false)
  end.

(** Lines 187-200. The name [forward_backward_func] is bound inside the
    loop only. *)
Definition collect (w : world) : result (option Aux) :=
  match non_loss_data_func env with
  | Some g => ret (Some (g (model w)))
  | None =>
      if process_non_loss_data_func env && is_last_rank env then
        if decide (0 < eval_iters args)
        then ret (Some (collect_non_loss_data env))
        else raise UnboundLocalError
      else ret None
  end.

Definition eval_result : Type :=
  (option (gmap string num) * option Aux * bool)%type.

Definition evaluate (w : world) : frame * result eval_result :=
  let w := with_model (map (fun _ => EvalMode) (model w)) w in
  let rerun_mode := rerun w in
  let w := with_rerun DISABLED w in
  let fresh_dict : gmap string (num * num) := ∅ in
  let eval_batch_size := global_batch_size args in
  match floordiv eval_batch_size (micro_batch_size args * data_parallel_size args) with
  | inl e => (mkFrame w fresh_dict 0, raise e)
  | inr eval_num_microbatches =>
      let '(f, aborted) :=
        eval_loop (Z.to_nat (eval_iters args)) rerun_mode eval_num_microbatches
                  (mkFrame w fresh_dict 0) in
      if aborted then (f, ret (None, None, true))
      else
        match collect (outer f) with
        | inl e => (f, raise e)
        | inr collected_non_loss_data =>
            let w := with_model (map (fun _ => TrainMode) (model (outer f))) (outer f) in
            let metrics := finalize (total_loss_dict f) in
            let w := with_rerun rerun_mode w in
            let w := with_rerun rerun_mode w in
            (mkFrame w (total_loss_dict f) (iteration f),
             ret (Some metrics, collected_non_loss_data, false))
        end
  end.
End Eval.

Arguments Scalar {num} v.
Arguments Paired {num} v w.
Arguments mkEnv {num Aux}.
Arguments is_pipeline_last_stage {num Aux} e.
Arguments is_last_rank {num Aux} e.
Arguments forward_backward_func {num Aux} e.
Arguments time_exceeded {num Aux} e.
Arguments non_loss_data_func {num Aux} e.
Arguments process_non_loss_data_func {num Aux} e.
Arguments collect_non_loss_data {num Aux} e.
Arguments mkFrame {num}.
Arguments outer {num} f.
Arguments total_loss_dict {num} f.
Arguments iteration {num} f.
Arguments add_pair {num} add a b.
Arguments contribution {num} one val.
Arguments accumulate_key {num} zero one add key val total.
Arguments accumulate_dict {num} zero one add loss_dict total.
Arguments accumulate_dicts {num} zero one add loss_dicts total.
Arguments finalize {num} div total.
Arguments iteration_body {num} zero one add {Aux} args env eval_num_microbatches f.
Arguments done_cuda {num Aux} env f.
Arguments time_limit_reached {num Aux} args env all_reduce f.
Arguments eval_loop {num} zero one add {Aux} args env all_reduce fuel rerun_mode eval_num_microbatches f.
Arguments collect {num Aux} args env w.
Arguments evaluate {num} zero one add div {Aux} args env all_reduce w.

(** *** The fleet *)

Section Fleet.
Variable num : Type.
Variable zero one : num.
Variable add div : num -> num -> num.
Variable Aux : Type.

(** One worker per rank: its surroundings and its state at the call. *)
Record worker : Type := mkWorker {
  w_env : Env num Aux;
  w_world : world
}.

(** What the process group computes from the values the ranks hand over. *)
Definition all_reduce_MAX (xs : list Z) : Z :=
  match xs with
  | [] => 0
  | x :: rest => foldl Z.max x rest
  end.

Definition all_reduce_SUM (xs : list Z) : Z := foldl Z.add 0 xs.

Definition reduce (op : ReduceOp) (xs : list Z) : Z :=
  match op with
  | MAX => all_reduce_MAX xs
  | SUM => all_reduce_SUM xs
  end.

(** The tensors on the table in the collective of iteration [it]: all
    ranks run the same [args], so they reach that call together, each
    handing over its own [done_cuda] of line 179. *)
Definition handed_over (ws : list worker) (it : Z) : list Z :=
  map (fun w => done_cuda (w_env w) (mkFrame (w_world w) ∅ it)) ws.

(** The collective as rank [r] sees it: the reduction, by the operation
    the rank asked for, of what the ranks hand over, rank [r]'s own entry
    being the value [mine] it passes in the call. *)
Definition fleet_all_reduce (ws : list worker) (r : nat)
    (op : ReduceOp) (it : Z) (mine : Z) : Z :=
  reduce op (<[r := mine]> (handed_over ws it)).

(** Every rank runs [evaluate] against the same process group. *)
Definition fleet_evaluate (args : Args) (ws : list worker)
    : list (frame num * result (eval_result num Aux)) :=
  imap (fun r w => evaluate zero one add div args (w_env w)
                     (fleet_all_reduce ws r) (w_world w)) ws.
End Fleet.

Arguments mkWorker {num Aux}.
Arguments w_env {num Aux} w.
Arguments w_world {num Aux} w.
Arguments handed_over {num Aux} ws it.
Arguments fleet_all_reduce {num Aux} ws r op it mine.
Arguments fleet_evaluate {num} zero one add div {Aux} args ws.

(** *** What the accumulator should hold, in the specification's words *)

Section MetricSpec.
Variable num : Type.
Variable zero one : num.
Variable add div : num -> num -> num.

(** Left-to-right sum, starting from [zero]. *)
Definition sum (l : list num) : num := foldl add zero l.

(** The values reported under [key], in the order of the dictionaries. *)
Definition reported (key : string) (dicts : list (gmap string (loss_val num)))
    : list (loss_val num) :=
  omap (fun d => d !! key) dicts.

(** A paired report [(v, w)] counts as [(v, w)], a scalar [v] as [(v, 1)]. *)
Definition spec_pair (val : loss_val num) : num * num :=
  match val with
  | Scalar v => (v, one)
  | Paired v w => (v, w)
  end.

(** Numerator over denominator; no entry for a key never reported. *)
Definition metric_spec (key : string) (dicts : list (gmap string (loss_val num)))
    : option num :=
  match reported key dicts with
  | [] => None
  | vals => Some (div (sum (map (fun v => fst (spec_pair v)) vals))
                      (sum (map (fun v => snd (spec_pair v)) vals)))
  end.
End MetricSpec.

Arguments sum {num} zero add l.
Arguments reported {num} key dicts.
Arguments spec_pair {num} one val.
Arguments metric_spec {num} zero one add div key dicts.

(** The loss dictionaries of iterations [1..n], in order. *)
Definition all_loss_dicts {num Aux} (env : Env num Aux)
    (eval_num_microbatches : Z) (n : nat) : list (gmap string (loss_val num)) :=
  flat_map (fun k => forward_backward_func env (Z.of_nat (S k)) eval_num_microbatches)
           (seq 0 n).

(** What one report under a key does to that key's entry of the
    accumulator ([None]: no entry yet). *)
Definition bump {num} (zero one : num) (add : num -> num -> num)
    (entry : option (num * num)) (val : loss_val num) : option (num * num) :=
  Some (add_pair add (default (zero, zero) entry) (contribution one val)).

End Evaluate.

(** ** One forward step ([forward_step]) *)

Module ForwardStep.
Local Open Scope Z_scope.

(** An integer tensor, flattened; elementwise operations keep its shape. *)
Definition tensor : Type := list Z.

(** What [get_batch(data_iterator)] hands back: [None] or a dictionary of
    named tensors. *)
Definition batch : Type := gmap string tensor.

(** [not data]: Python's [None] and the empty dictionary are false. *)
Definition is_falsy (data : option batch) : bool :=
  match data with
  | None => true
  | Some d => bool_decide (d = ∅)
  end.

(** [(labels != -100).float()]: 1.0 where the label counts, 0.0 where it is
    the ignore index; the two floats are written as the integers they
    equal. *)
Definition loss_mask_of (labels : tensor) : list Z :=
  map (fun l => if decide (l = -100) then 0 else 1) labels.

Section Step.
(** The wrapped network: its output, or the exception it raised. *)
Variable Out : Type.
Variable model : batch -> result Out.

(** Lines 233-247. The boolean state is whether the timer
    ['batch-generator'] is running; the returned pair stands for
    [(output_tensor, partial(loss_func, loss_mask))], the partial
    application being determined by the mask it captured. *)
Definition forward_step (data : option batch) (running : bool)
    : bool * result (Out * option (list Z)) :=
  let running := true in
  if is_falsy data then (running, raise StopIteration)
  else
    let running := false in
    let d := default ∅ data in
    match model d with
    | inl e => (running, raise e)
    | inr output_tensor =>
        let labels := d !! "labels"%string in
        let loss_mask :=
          match labels with
          | None => None
          | Some l => Some (loss_mask_of l)
          end in
        (running, ret (output_tensor, loss_mask))
    end.
End Step.

Arguments forward_step {Out} model data running.

End ForwardStep.

(** ** What a cyclic iterator has delivered *)

Module CyclicTrace.
Local Open Scope Z_scope.

(** [delivered source s items]: the items handed out so far are [i] whole
    passes over the source followed by the part of the current pass that
    is already consumed, [i] being the generator's epoch index. *)
Definition delivered {A} (source : list A) (s : Cyclic.gen_state A)
    (items : list A) : Prop :=
  match s with
  | Cyclic.Head i | Cyclic.Done i =>
      0 <= i /\ items = Cyclic.passes source (Z.to_nat i)
  | Cyclic.InFor i rest =>
      0 <= i /\
      exists pre, source = pre ++ rest /\
                  items = Cyclic.passes source (Z.to_nat i) ++ pre
  end.

(** The generator body has not returned. *)
Definition running {A} (s : Cyclic.gen_state A) : Prop :=
  forall i, s <> Cyclic.Done i.

End CyclicTrace.

(** * Properties *)

(** ** Iteration budgets *)

Section GetItersFacts.
Import GetIters.
Local Open Scope Z_scope.

Lemma floordiv_ok (a b : Z) : b <> 0 -> floordiv a b = inr (a / b).
Proof. intros Hb. unfold floordiv. case_decide; [contradiction | reflexivity]. Qed.

Lemma floordiv_zero (a : Z) : floordiv a 0 = raise ZeroDivisionError.
Proof. reflexivity. Qed.

(** The validation branch never touches the other attributes. *)
Lemma derive_eval_iters_frame (val : option dataset) (sbs : Z) (a : Args) :
  let a' := fst (derive_eval_iters val sbs a) in
  train_iters a' = train_iters a /\
  micro_batch_size a' = micro_batch_size a /\
  global_batch_size a' = global_batch_size a /\
  max_epochs a' = max_epochs a.
Proof.
  unfold derive_eval_iters.
  destruct val as [[n|]|]; simpl; auto.
  - case_decide; simpl; auto.
    destruct (floordiv (Z.of_N n) sbs) as [e|q]; simpl; auto.
    destruct (floordiv (q * sbs) (global_batch_size a)) as [e|t]; simpl; auto.
  - case_decide; simpl; auto.
Qed.

(** The training branch never touches [eval_iters] or the batch sizes. *)
Lemma derive_train_iters_frame (train : dataset) (sbs : Z) (a : Args) :
  let a' := fst (derive_train_iters train sbs a) in
  eval_iters a' = eval_iters a /\
  micro_batch_size a' = micro_batch_size a /\
  global_batch_size a' = global_batch_size a.
Proof.
  unfold derive_train_iters.
  destruct (train_iters a); simpl; auto.
  destruct train as [n|]; simpl; auto.
  destruct (floordiv (Z.of_N n) sbs) as [e|q]; simpl; auto.
  destruct (max_epochs a) as [me|]; simpl; auto.
  destruct (floordiv (q * sbs * me) (global_batch_size a)) as [e|t]; simpl; auto.
Qed.

(** When the derivation of [train_iters] runs on well-formed numbers it
    succeeds with the closed formula. *)
Lemma derive_train_iters_value (n : N) (sbs me : Z) (a : Args) :
  train_iters a = None -> max_epochs a = Some me ->
  sbs <> 0 -> global_batch_size a <> 0 ->
  derive_train_iters (Some n) sbs a =
    (set_train_iters (Z.of_N n / sbs * sbs * me / global_batch_size a + 1) a, ret tt).
Proof.
  intros Ht Hm Hs Hg. unfold derive_train_iters.
  rewrite Ht, Hm, (floordiv_ok _ _ Hs). simpl.
  rewrite (floordiv_ok _ _ Hg). reflexivity.
Qed.

(** The training branch returns normally exactly when there is nothing
    to derive or the derivation is defined. *)
Lemma derive_train_iters_returns (train : dataset) (sbs : Z) (a : Args) :
  sbs <> 0 -> global_batch_size a <> 0 ->
  (train_iters a = None -> is_Some train /\ is_Some (max_epochs a)) ->
  exists a', derive_train_iters train sbs a = (a', ret tt).
Proof.
  intros Hs Hg Hwf. destruct (train_iters a) as [t|] eqn:Ht.
  - exists a. unfold derive_train_iters. rewrite Ht. reflexivity.
  - destruct (Hwf eq_refl) as [[n ->] [me Hme]].
    eexists. apply (derive_train_iters_value n sbs me a); assumption.
Qed.

Lemma derive_eval_iters_value (n : N) (sbs : Z) (a : Args) :
  eval_iters a < 0 -> sbs <> 0 -> global_batch_size a <> 0 ->
  derive_eval_iters (Some (Some n)) sbs a =
    (set_eval_iters (Z.max (Z.of_N n / sbs * sbs / global_batch_size a) 1) a, ret tt).
Proof.
  intros He Hs Hg. unfold derive_eval_iters.
  case_decide; [|lia].
  rewrite (floordiv_ok _ _ Hs). simpl.
  rewrite (floordiv_ok _ _ Hg). reflexivity.
Qed.

(** If the validation branch returns normally after deriving, the value
    it stored is the closed formula. *)
Lemma derive_eval_iters_inv (n : N) (sbs : Z) (a a' : Args) :
  eval_iters a < 0 ->
  derive_eval_iters (Some (Some n)) sbs a = (a', ret tt) ->
  eval_iters a' = Z.max (Z.of_N n / sbs * sbs / global_batch_size a) 1.
Proof.
  intros He. unfold derive_eval_iters.
  case_decide; [|lia].
  unfold floordiv at 1. case_decide; simpl; [discriminate|].
  unfold floordiv. case_decide; simpl; [discriminate|].
  intros [= <-]. reflexivity.
Qed.
End GetItersFacts.

(** C9. When [train_iters] is unset and the training dataset has a known
    length, startup stores
    [train_iters = ((len // step) * step * max_epochs // global) + 1] with
    [step = micro_batch_size * data_parallel_size], whether or not the
    validation branch that follows raises; with [max_epochs = 2], length
    10, micro batch 1, data parallel 1 and global batch 2 this is 11. *)
Theorem C9_train_iters_derivation :
  (forall (n : N) (val : option GetIters.dataset) (dp me : Z) (a : GetIters.Args),
      GetIters.train_iters a = None ->
      GetIters.max_epochs a = Some me ->
      (GetIters.micro_batch_size a * dp <> 0)%Z ->
      (GetIters.global_batch_size a <> 0)%Z ->
      let step_batch_size := (GetIters.micro_batch_size a * dp)%Z in
      GetIters.train_iters (fst (GetIters.initialize_megatron (Some n) val dp a)) =
        Some (Z.of_N n / step_batch_size * step_batch_size * me
              / GetIters.global_batch_size a + 1)%Z) /\
  GetIters.train_iters
    (fst (GetIters.initialize_megatron (Some 10%N) None 1
            (GetIters.mkArgs 1 2 None (-1) (Some 2%Z)))) = Some 11%Z.
Proof.
  split; [|reflexivity].
  intros n val dp me a Ht Hm Hs Hg step_batch_size.
  unfold GetIters.initialize_megatron.
  fold step_batch_size.
  rewrite (derive_train_iters_value n step_batch_size me a Ht Hm Hs Hg).
  simpl.
  destruct (derive_eval_iters_frame val step_batch_size
              (GetIters.set_train_iters
                 (Z.of_N n / step_batch_size * step_batch_size * me
                  / GetIters.global_batch_size a + 1) a)) as [H _].
  simpl in H. exact H.
Qed.

Lemma C9_train_iters_derivation_witness :
  GetIters.train_iters
    (fst (GetIters.initialize_megatron (Some 10%N) (Some None) 1
            (GetIters.mkArgs 1 2 None (-1) (Some 2%Z)))) = Some 11%Z.
Proof.
  exact (proj1 C9_train_iters_derivation 10%N (Some None) 1%Z 2%Z
           (GetIters.mkArgs 1 2 None (-1) (Some 2%Z))
           eq_refl eq_refl ltac:(simpl; lia) ltac:(simpl; lia)).
Defined.

(** C10. Whenever [eval_iters] is derived at startup (validation dataset
    with a known length, [eval_iters] negative), the stored value is
    [max((len // step * step) // global, 1)], hence at least 1; and the
    derivation does go through on well-formed batch sizes. *)
Theorem C10_eval_iters_at_least_one :
  forall (train : GetIters.dataset) (n : N) (dp : Z) (a : GetIters.Args),
    (GetIters.eval_iters a < 0)%Z ->
    let step_batch_size := (GetIters.micro_batch_size a * dp)%Z in
    (forall a',
        GetIters.initialize_megatron train (Some (Some n)) dp a = (a', ret tt) ->
        GetIters.eval_iters a' =
          Z.max (Z.of_N n / step_batch_size * step_batch_size
                 / GetIters.global_batch_size a) 1 /\
        (1 <= GetIters.eval_iters a')%Z) /\
    (step_batch_size <> 0%Z ->
     GetIters.global_batch_size a <> 0%Z ->
     (GetIters.train_iters a = None ->
      is_Some train /\ is_Some (GetIters.max_epochs a)) ->
     exists a', GetIters.initialize_megatron train (Some (Some n)) dp a = (a', ret tt)).
Proof.
  intros train n dp a He step_batch_size. split.
  - intros a'. unfold GetIters.initialize_megatron. fold step_batch_size.
    destruct (GetIters.derive_train_iters train step_batch_size a) as [a1 [e|[]]] eqn:Hd.
    + discriminate.
    + intros Hv.
      destruct (derive_train_iters_frame train step_batch_size a) as (He1 & _ & Hg1).
      rewrite Hd in He1, Hg1. simpl in He1, Hg1.
      apply derive_eval_iters_inv in Hv; [|lia].
      rewrite Hv, Hg1. split; [reflexivity | lia].
  - intros Hs Hg Hwf.
    destruct (derive_train_iters_returns train step_batch_size a Hs Hg Hwf) as [a1 Hd].
    unfold GetIters.initialize_megatron. fold step_batch_size. rewrite Hd.
    destruct (derive_train_iters_frame train step_batch_size a) as (He1 & _ & Hg1).
    rewrite Hd in He1, Hg1. simpl in He1, Hg1.
    eexists. apply derive_eval_iters_value; [lia | assumption | congruence].
Qed.

Lemma C10_eval_iters_at_least_one_witness :
  exists a',
    GetIters.initialize_megatron (Some 10%N) (Some (Some 1%N)) 1
      (GetIters.mkArgs 1 2 None (-1) (Some 2%Z)) = (a', ret tt) /\
    GetIters.eval_iters a' = 1%Z.
Proof.
  pose proof (C10_eval_iters_at_least_one (Some 10%N) 1%N 1%Z
                (GetIters.mkArgs 1 2 None (-1) (Some 2%Z))
                ltac:(simpl; lia)) as [Hval Hex].
  destruct Hex as [a' Ha'].
  - simpl; lia.
  - simpl; lia.
  - intros _. split; eexists; reflexivity.
  - exists a'. split; [exact Ha'|].
    destruct (Hval a' Ha') as [Hv _]. rewrite Hv. reflexivity.
Defined.

Section GetItersRaise.
Import GetIters.
Local Open Scope Z_scope.

(** Lines 36-52 under either condition: they raise; the exception is the
    [ValueError] of line 44 or 51 as soon as the arithmetic of lines
    41-42, when it runs at all, is defined. *)
Lemma initialize_streaming_raises (train : dataset) (val : option dataset)
    (dp : Z) (a : Args) :
  (train = None /\ train_iters a = None) \/
  (val = Some None /\ eval_iters a < 0) ->
  exists a' e,
    initialize_megatron train val dp a = (a', raise e) /\
    ((train_iters a = None -> is_Some train ->
      micro_batch_size a * dp <> 0 /\
      global_batch_size a <> 0 /\
      is_Some (max_epochs a)) ->
     exists msg, e = ValueError msg).
Proof.
  intros Hcase. unfold initialize_megatron.
  set (sbs := micro_batch_size a * dp).
  destruct (train_iters a) as [t|] eqn:Ht.
  - destruct Hcase as [[_ Hn] | [-> He]]; [discriminate|].
    unfold derive_train_iters. rewrite Ht. simpl.
    case_decide; [|lia]. simpl.
    eexists _, _. split; [reflexivity|]. intros _. eexists; reflexivity.
  - destruct train as [n|].
    + destruct Hcase as [[Hn _] | [-> He]]; [discriminate|].
      destruct (decide (sbs = 0)) as [Hs|Hs].
      { unfold derive_train_iters. rewrite Ht, Hs. simpl.
        eexists _, _. split; [reflexivity|].
        intros Hwf. destruct (Hwf eq_refl (mk_is_Some _ _ eq_refl)) as (Hz & _). contradiction. }
      destruct (max_epochs a) as [me|] eqn:Hm.
      2:{ unfold derive_train_iters. rewrite Ht, Hm, (floordiv_ok _ _ Hs). simpl.
          eexists _, _. split; [reflexivity|].
          intros Hwf. destruct (Hwf eq_refl (mk_is_Some _ _ eq_refl)) as (_ & _ & [x Hx]).
          discriminate. }
      destruct (decide (global_batch_size a = 0)) as [Hg|Hg].
      { unfold derive_train_iters. rewrite Ht, Hm, (floordiv_ok _ _ Hs), Hg. simpl.
        eexists _, _. split; [reflexivity|].
        intros Hwf. destruct (Hwf eq_refl (mk_is_Some _ _ eq_refl)) as (_ & Hz & _). contradiction. }
      rewrite (derive_train_iters_value n sbs me a Ht Hm Hs Hg).
      unfold derive_eval_iters. simpl.
      case_decide; [|lia]. simpl.
      eexists _, _. split; [reflexivity|]. intros _. eexists; reflexivity.
    + unfold derive_train_iters. rewrite Ht. simpl.
      eexists _, _. split; [reflexivity|]. intros _. eexists; reflexivity.
Qed.
End GetItersRaise.

(** C4, as stated, fails: with [train_iters] unset, a training dataset of
    length 10, [max_epochs] unset, a streaming validation dataset and
    [eval_iters = -1], line 42 multiplies by [None] and raises
    [TypeError] before line 51 is reached; with [micro_batch_size = 0]
    instead, line 41 raises [ZeroDivisionError]. Neither is the
    [ValueError] the claim promises. *)
Lemma C4_arithmetic_fails_before_the_streaming_check :
  GetIters.patched_initialize_megatron (World := GetIters.Args) (Res := unit)
    (fun w => (w, ret tt)) (fun w => w) (fun a _ => a) (fun _ => 1%Z)
    (Some 10%N) (Some None) (GetIters.mkArgs 1 2 None (-1) None) =
    (GetIters.mkArgs 1 2 None (-1) None, raise TypeError) /\
  GetIters.patched_initialize_megatron (World := GetIters.Args) (Res := unit)
    (fun w => (w, ret tt)) (fun w => w) (fun a _ => a) (fun _ => 1%Z)
    (Some 10%N) (Some None) (GetIters.mkArgs 0 2 None (-1) (Some 2%Z)) =
    (GetIters.mkArgs 0 2 None (-1) (Some 2%Z), raise ZeroDivisionError) /\
  (forall msg, TypeError <> ValueError msg /\ ZeroDivisionError <> ValueError msg).
Proof.
  split; [reflexivity|]. split; [reflexivity|].
  intros msg. split; discriminate.
Qed.

(** C4, amended. If the training dataset has no length and [train_iters]
    is unset, or a validation dataset without length is given and
    [eval_iters] is negative, then the patched [initialize_megatron] never
    returns normally: once the original initializer has run and returned
    (line 35), lines 39-52 raise on the state it left, before any budget
    for the missing bound is stored and before control goes back to
    [pretrain]. The exception is the [ValueError] of line 44 or 51
    whenever the arithmetic of lines 41-42, if it runs first, is defined.
    A [pretrain] that lets the initializer's exception through makes
    [train] raise the same exception, with the original initializer bound
    again. *)
Theorem C4_streaming_dataset_stops_startup :
  forall (World Res : Type)
         (origin_initialize_megatron : World -> World * result Res)
         (get_args : World -> GetIters.Args)
         (set_args : GetIters.Args -> World -> World)
         (get_data_parallel_world_size : World -> Z)
         (pretrain : (World -> World * result Res) -> World -> World * result unit)
         (train_dataset : GetIters.dataset) (val_dataset : option GetIters.dataset)
         (w w1 : World) (res : Res),
    origin_initialize_megatron w = (w1, ret res) ->
    let a := get_args w1 in
    let dp := get_data_parallel_world_size w1 in
    (train_dataset = None /\ GetIters.train_iters a = None) \/
    (val_dataset = Some None /\ (GetIters.eval_iters a < 0)%Z) ->
    exists a' e,
      GetIters.patched_initialize_megatron origin_initialize_megatron get_args
        set_args get_data_parallel_world_size train_dataset val_dataset w =
        (set_args a' w1, raise e) /\
      ((GetIters.train_iters a = None -> is_Some train_dataset ->
        (GetIters.micro_batch_size a * dp)%Z <> 0%Z /\
        GetIters.global_batch_size a <> 0%Z /\
        is_Some (GetIters.max_epochs a)) ->
       exists msg, e = ValueError msg) /\
      ((forall init w0 w' e',
           init w0 = (w', raise e') -> pretrain init w0 = (w', raise e')) ->
       GetIters.train origin_initialize_megatron get_args set_args
         get_data_parallel_world_size pretrain train_dataset val_dataset w =
         (set_args a' w1, raise e, GetIters.Origin)).
Proof.
  intros World Res origin get_args set_args get_dp pretrain train val w w1 res
         Horigin a dp Hcase.
  destruct (initialize_streaming_raises train val dp a Hcase) as (a' & e & Hinit & Hval).
  assert (Hpatched :
            GetIters.patched_initialize_megatron origin get_args set_args get_dp
              train val w = (set_args a' w1, raise e)).
  { unfold GetIters.patched_initialize_megatron. rewrite Horigin.
    fold a. fold dp. rewrite Hinit. reflexivity. }
  exists a', e. split; [exact Hpatched|]. split; [exact Hval|].
  intros Hpre. unfold GetIters.train, GetIters._get_iters.
  rewrite (Hpre _ _ _ _ Hpatched). reflexivity.
Qed.

Lemma C4_streaming_dataset_stops_startup_witness :
  exists a' msg,
    GetIters.train (World := GetIters.Args * list nat) (Res := unit)
      (fun w => ((fst w, snd w ++ [0%nat]), ret tt))
      fst (fun a w => (a, snd w)) (fun _ => 1%Z)
      (fun init w => match init w with
                     | (w', inl e) => (w', raise e)
                     | (w', inr _) => ((fst w', snd w' ++ [1%nat]), ret tt)
                     end)
      (Some 10%N) (Some None)
      (GetIters.mkArgs 1 2 None (-1) (Some 2%Z), []) =
      ((a', [0%nat]), raise (ValueError msg), GetIters.Origin).
Proof.
  assert (Hneg : (GetIters.eval_iters (GetIters.mkArgs 1 2 None (-1) (Some 2%Z)) < 0)%Z)
    by (simpl; lia).
  destruct (C4_streaming_dataset_stops_startup
              (GetIters.Args * list nat) unit
              (fun w => ((fst w, snd w ++ [0%nat]), ret tt))
              fst (fun a w => (a, snd w)) (fun _ => 1%Z)
              (fun init w => match init w with
                             | (w', inl e) => (w', raise e)
                             | (w', inr _) => ((fst w', snd w' ++ [1%nat]), ret tt)
                             end)
              (Some 10%N) (Some None)
              (GetIters.mkArgs 1 2 None (-1) (Some 2%Z), [])
              (GetIters.mkArgs 1 2 None (-1) (Some 2%Z), [0%nat]) tt
              eq_refl (or_intror (conj eq_refl Hneg)))
    as (a' & e & _ & Hval & Htrain).
  destruct Hval as [msg ->].
  - intros _ _. simpl. repeat split; try lia. eexists; reflexivity.
  - exists a', msg. apply Htrain.
    intros init w0 w' e' Hinit. rewrite Hinit. reflexivity.
Defined.

(** ** The cyclic iterator *)

Section CyclicFacts.
Import Cyclic.
Local Open Scope Z_scope.

Context {A : Type}.
Variable max_epochs : option Z.
Variable source : list A.

Local Abbreviation step := (step max_epochs source).
Local Abbreviation next := (next max_epochs source).
Local Abbreviation consume := (consume max_epochs source).

(** More fuel never changes an answer already obtained. *)
Lemma next_mono (fuel fuel' : nat) (b : bool) (s : gen_state A) r :
  next fuel b s = Some r -> (fuel <= fuel')%nat -> next fuel' b s = Some r.
Proof.
  revert fuel' s. induction fuel as [|fuel IH]; intros fuel' s H Hle.
  - discriminate.
  - destruct fuel' as [|fuel']; [lia|].
    simpl in *. destruct (step b s); auto. apply IH; [assumption | lia].
Qed.

(** A move changes [i] only at the end of a pass, and then by one,
    whatever the flag. *)
Lemma step_epoch (b : bool) (s : gen_state A) :
  match step b s with
  | Tau s' | Yield _ s' | Stop s' =>
      epoch s' = epoch s \/
      (exists i, s = InFor i [] /\ s' = Head (i + 1))
  end.
Proof.
  destruct s as [i | i [|x rest] | i]; simpl; eauto.
  destruct (b && epochs_completed max_epochs i); simpl; auto.
Qed.

(** With the flag false a move never stops a running generator. *)
Lemma step_false_running (s : gen_state A) :
  (forall i, s <> Done i) ->
  match step false s with
  | Tau s' | Yield _ s' => forall i, s' <> Done i
  | Stop _ => False
  end.
Proof.
  intros Hrun. destruct s as [i | i [|x rest] | i]; simpl; try discriminate.
  exact (Hrun i eq_refl).
Qed.

Lemma next_false_never_stops (fuel : nat) (s s' : gen_state A) :
  (forall i, s <> Done i) -> next fuel false s <> Some (None, s').
Proof.
  revert s. induction fuel as [|fuel IH]; intros s Hrun; simpl; [discriminate|].
  pose proof (step_false_running s Hrun) as Hs.
  destruct (step false s) as [s1 | x s1 | s1]; [ | discriminate | contradiction].
  apply IH, Hs.
Qed.

(** Over a non-empty source three moves always reach a [yield] when the
    flag is false. *)
Lemma next_false_yields (fuel : nat) (s : gen_state A) :
  source <> [] -> (forall i, s <> Done i) -> (3 <= fuel)%nat ->
  exists x s', next fuel false s = Some (Some x, s') /\ (forall i, s' <> Done i).
Proof.
  intros Hne Hrun Hfuel.
  assert (H3 : exists x s', next 3 false s = Some (Some x, s') /\ forall i, s' <> Done i).
  { destruct source as [|x0 r0]; [contradiction|].
    destruct s as [i | i [|x rest] | i]; simpl.
    - exists x0, (InFor i r0). split; [reflexivity | discriminate].
    - exists x0, (InFor (i + 1) r0). split; [reflexivity | discriminate].
    - exists x, (InFor i rest). split; [reflexivity | discriminate].
    - destruct (Hrun i eq_refl). }
  destruct H3 as (x & s' & H & Hs'). exists x, s'. split; [|exact Hs'].
  exact (next_mono 3 fuel false s _ H Hfuel).
Qed.
End CyclicFacts.

Section CyclicTraining.
Import Cyclic.
Local Open Scope Z_scope.

Context {A : Type}.
Variable N : Z.
Hypothesis N_pos : 0 < N.
Variable source : list A.

Local Abbreviation next := (next (Some N) source).
Local Abbreviation consume := (consume (Some N) source).

Lemma epochs_completed_lt (i : Z) : i < N -> epochs_completed (Some N) i = false.
Proof.
  intros Hi. unfold epochs_completed.
  destruct (Z.leb_spec N i); [lia|]. apply andb_false_r.
Qed.

Lemma epochs_completed_ge (i : Z) : N <= i -> epochs_completed (Some N) i = true.
Proof.
  intros Hi. unfold epochs_completed.
  destruct (Z.eqb_spec N 0); [lia|]. destruct (Z.leb_spec N i); [reflexivity | lia].
Qed.

Lemma step_head_lt (i : Z) :
  i < N -> Cyclic.step (Some N) source true (Head i) = Tau (InFor i source).
Proof. intros Hi. cbn [Cyclic.step]. rewrite epochs_completed_lt by lia. reflexivity. Qed.

Lemma step_head_ge (i : Z) :
  N <= i -> Cyclic.step (Some N) source true (Head i) = Stop (Done i).
Proof. intros Hi. cbn [Cyclic.step]. rewrite epochs_completed_ge by lia. reflexivity. Qed.

Lemma step_enter_empty (b : bool) (i : Z) :
  source = [] -> Cyclic.step (Some N) source b (InFor i source) = Tau (Head (i + 1)).
Proof. intros H. destruct source; [reflexivity | discriminate]. Qed.

Lemma step_enter_cons (b : bool) (i : Z) (x0 : A) (r0 : list A) :
  source = x0 :: r0 ->
  Cyclic.step (Some N) source b (InFor i source) = Yield x0 (InFor i r0).
Proof. intros H. destruct source; [discriminate | injection H as -> ->; reflexivity]. Qed.

Lemma next_tau (fuel : nat) (b : bool) (s s' : gen_state A) :
  Cyclic.step (Some N) source b s = Tau s' -> next (S fuel) b s = next fuel b s'.
Proof. intros H. cbn [Cyclic.next]. rewrite H. reflexivity. Qed.

Lemma next_yield (fuel : nat) (b : bool) (s s' : gen_state A) (x : A) :
  Cyclic.step (Some N) source b s = Yield x s' -> next (S fuel) b s = Some (Some x, s').
Proof. intros H. cbn [Cyclic.next]. rewrite H. reflexivity. Qed.

Lemma next_stop (fuel : nat) (b : bool) (s s' : gen_state A) :
  Cyclic.step (Some N) source b s = Stop s' -> next (S fuel) b s = Some (None, s').
Proof. intros H. cbn [Cyclic.next]. rewrite H. reflexivity. Qed.

(** Over an empty source the body runs through the remaining epochs
    without yielding and returns with [i = N]. *)
Lemma next_empty_source (k : nat) (i : Z) (fuel : nat) :
  source = [] -> i + Z.of_nat k = N -> (2 * k + 1 <= fuel)%nat ->
  next fuel true (Head i) = Some (None, Done N).
Proof.
  intros Hsrc. revert i fuel. induction k as [|k IH]; intros i fuel Hi Hfuel.
  - destruct fuel as [|fuel]; [lia|].
    rewrite (next_stop _ _ _ _ (step_head_ge i ltac:(lia))).
    do 3 f_equal. lia.
  - destruct fuel as [|[|fuel]]; [lia | lia |].
    rewrite (next_tau _ _ _ _ (step_head_lt i ltac:(lia))).
    rewrite (next_tau _ _ _ _ (step_enter_empty true i Hsrc)).
    apply IH; lia.
Qed.

Lemma passes_empty (n : nat) : source = [] -> passes source n = [].
Proof.
  intros Hsrc. induction n as [|n IH]; simpl; [reflexivity|].
  rewrite IH, app_nil_r. exact Hsrc.
Qed.

Lemma length_passes (n : nat) : length (passes source n) = (n * length source)%nat.
Proof. induction n as [|n IH]; simpl; [reflexivity|]. rewrite length_app, IH. reflexivity. Qed.

(** One more item of the current pass. *)
Lemma consume_item (x : A) (rest : list A) (i : Z) (calls fuel from : nat) xs fin s :
  consume calls (S fuel) (fun _ => true) (S from) (InFor i rest) = Some (xs, fin, s) ->
  consume (S calls) (S fuel) (fun _ => true) from (InFor i (x :: rest)) =
    Some (x :: xs, fin, s).
Proof.
  intros H. cbn [Cyclic.consume].
  rewrite (next_yield fuel true (InFor i (x :: rest)) (InFor i rest) x eq_refl).
  rewrite H. reflexivity.
Qed.

(** From inside a pass: the rest of the pass, then the passes still to
    come, then [StopIteration]. *)
Lemma consume_in_pass (x0 : A) (r0 : list A) (k : nat) :
  source = x0 :: r0 ->
  forall (rest : list A) (i : Z) (calls fuel from : nat),
    (3 <= fuel)%nat -> 0 <= i -> i + 1 + Z.of_nat k = N ->
    (length rest + k * length source < calls)%nat ->
    consume calls fuel (fun _ => true) from (InFor i rest) =
      Some (rest ++ passes source k, true, Done N).
Proof.
  intros Hsrc.
  assert (Hlen : length source = S (length r0)) by (rewrite Hsrc; reflexivity).
  induction k as [|k IHk].
  - induction rest as [|x rest IHr]; intros i calls fuel from Hfuel Hi HN Hcalls.
    + destruct calls as [|calls]; [simpl in Hcalls; lia|].
      destruct fuel as [|[|fuel]]; [lia | lia |].
      cbn [Cyclic.consume].
      rewrite (next_tau _ true (InFor i []) (Head (i + 1)) eq_refl).
      rewrite (next_stop _ _ _ _ (step_head_ge (i + 1) ltac:(lia))).
      do 3 f_equal. lia.
    + destruct calls as [|calls]; [simpl in Hcalls; lia|].
      destruct fuel as [|fuel]; [lia|].
      apply (consume_item x rest i calls fuel from).
      apply IHr; simpl in *; lia.
  - induction rest as [|x rest IHr]; intros i calls fuel from Hfuel Hi HN Hcalls.
    + destruct calls as [|calls]; [simpl in Hcalls; lia|].
      destruct fuel as [|[|[|fuel]]]; [lia | lia | lia |].
      cbn [Cyclic.consume].
      rewrite (next_tau _ true (InFor i []) (Head (i + 1)) eq_refl).
      rewrite (next_tau _ _ _ _ (step_head_lt (i + 1) ltac:(lia))).
      rewrite (next_yield _ _ _ _ _ (step_enter_cons true (i + 1) x0 r0 Hsrc)).
      rewrite (IHk r0 (i + 1) calls (S (S (S fuel))) (S from)); [ | lia | lia | lia | ].
      * cbn [app passes]. rewrite Hsrc at 2. reflexivity.
      * simpl in *. lia.
    + destruct calls as [|calls]; [simpl in Hcalls; lia|].
      destruct fuel as [|fuel]; [lia|].
      apply (consume_item x rest i calls fuel from).
      apply IHr; simpl in *; lia.
Qed.

Lemma consume_training_run (calls fuel : nat) :
  (Z.to_nat N * length source < calls)%nat ->
  (2 * Z.to_nat N + 3 <= fuel)%nat ->
  consume calls fuel (fun _ => true) 0 new_cyclic_iter =
    Some (passes source (Z.to_nat N), true, Done N).
Proof.
  intros Hcalls Hfuel. unfold new_cyclic_iter.
  destruct calls as [|calls]; [lia|].
  destruct (list_eq_nil_dec source) as [Hsrc|Hsrc].
  - cbn [Cyclic.consume].
    rewrite (next_empty_source (Z.to_nat N) 0 fuel Hsrc) by lia.
    rewrite passes_empty by exact Hsrc. reflexivity.
  - assert (exists x0 r0, source = x0 :: r0) as (x0 & r0 & Hx).
    { destruct source as [|x0 r0]; [contradiction | eauto]. }
    assert (Hlen : length source = S (length r0)) by (rewrite Hx; reflexivity).
    destruct fuel as [|[|fuel]]; [lia | lia |].
    cbn [Cyclic.consume].
    rewrite (next_tau _ _ _ _ (step_head_lt 0 N_pos)).
    rewrite (next_yield _ _ _ _ _ (step_enter_cons true 0 x0 r0 Hx)).
    rewrite (consume_in_pass x0 r0 (Z.to_nat N - 1) Hx r0 0 calls (S (S fuel)) 1);
      [ | lia | lia | lia | nia ].
    replace (Z.to_nat N) with (S (Z.to_nat N - 1)) at 2 by lia.
    cbn [passes]. rewrite Hx at 2. reflexivity.
Qed.
End CyclicTraining.

(** C3. With [max_epochs = N > 0], a finite source and [is_training] true
    at every call, a consumer that keeps calling [next] receives exactly
    [N] passes over the source ([N * L] items), then [StopIteration], and
    the generator's [i] is [N] when it returns. *)
Theorem C3_cyclic_iter_yields_N_passes :
  forall (A : Type) (N : Z) (source : list A) (calls fuel : nat),
    (0 < N)%Z ->
    (Z.to_nat N * length source < calls)%nat ->
    (2 * Z.to_nat N + 3 <= fuel)%nat ->
    exists items s,
      Cyclic.consume (Some N) source calls fuel (fun _ => true) 0 Cyclic.new_cyclic_iter =
        Some (items, true, s) /\
      items = Cyclic.passes source (Z.to_nat N) /\
      length items = (Z.to_nat N * length source)%nat /\
      s = Cyclic.Done N /\
      Cyclic.epoch s = N.
Proof.
  intros A N source calls fuel HN Hcalls Hfuel.
  exists (Cyclic.passes source (Z.to_nat N)), (Cyclic.Done N).
  split; [apply consume_training_run; assumption|].
  split; [reflexivity|].
  split; [apply length_passes|].
  split; reflexivity.
Qed.

Lemma C3_cyclic_iter_yields_N_passes_witness :
  Cyclic.consume (Some 2%Z) [1%nat; 2%nat; 3%nat] 7 7 (fun _ => true) 0 Cyclic.new_cyclic_iter =
    Some ([1%nat; 2%nat; 3%nat; 1%nat; 2%nat; 3%nat], true, Cyclic.Done 2%Z).
Proof.
  destruct (C3_cyclic_iter_yields_N_passes nat 2%Z [1%nat; 2%nat; 3%nat] 7 7)
    as (items & s & Hrun & Hitems & _ & Hs & _).
  - lia.
  - simpl. lia.
  - simpl. lia.
  - rewrite Hrun, Hitems, Hs. reflexivity.
Defined.

(** C7, as stated, fails: consumed with [is_training] false throughout,
    the iterator over a one-item source has [i = 1] after the second
    item, so a pass completed during evaluation did advance the epoch
    index; and if the flag is true at the next call, with [max_epochs = 1]
    that pass has used up the only epoch. *)
Lemma C7_epoch_index_advances_with_flag_false :
  Cyclic.consume (Some 1%Z) [7%nat] 2 3 (fun _ => false) 0 Cyclic.new_cyclic_iter =
    Some ([7%nat; 7%nat], false, Cyclic.InFor 1%Z []) /\
  Cyclic.epoch (Cyclic.InFor 1%Z ([] : list nat)) = 1%Z /\
  Cyclic.next (Some 1%Z) [7%nat] 3 true (Cyclic.InFor 0%Z []) =
    Some (None, Cyclic.Done 1%Z) /\
  ~ (forall (fuel : nat) (s s' : Cyclic.gen_state nat) (x : option nat),
        Cyclic.next (Some 1%Z) [7%nat] fuel false s = Some (x, s') ->
        Cyclic.epoch s' = Cyclic.epoch s).
Proof.
  split; [reflexivity|]. split; [reflexivity|]. split; [reflexivity|].
  intros H.
  specialize (H 3%nat (Cyclic.InFor 0%Z []) (Cyclic.InFor 1%Z []) (Some 7%nat) eq_refl).
  discriminate H.
Qed.

(** C7, amended. The epoch index advances by one exactly when a pass over
    the source ends, whatever [is_training] is, and never otherwise; what
    the flag gates is the stop: with [is_training] false a running
    iterator never raises [StopIteration], whatever [i] is, and over a
    non-empty source every [next] yields an item. *)
Theorem C7_flag_gates_the_stop_not_the_counter :
  forall (A : Type) (max_epochs : option Z) (source : list A),
    (forall (b : bool) (i : Z),
        Cyclic.step max_epochs source b (Cyclic.InFor i []) =
          Cyclic.Tau (Cyclic.Head (i + 1))) /\
    (forall (b : bool) (s : Cyclic.gen_state A),
        match Cyclic.step max_epochs source b s with
        | Cyclic.Tau s' | Cyclic.Yield _ s' | Cyclic.Stop s' =>
            Cyclic.epoch s' = Cyclic.epoch s \/
            (exists i, s = Cyclic.InFor i [] /\ s' = Cyclic.Head (i + 1))
        end) /\
    (forall (fuel : nat) (s s' : Cyclic.gen_state A),
        (forall i, s <> Cyclic.Done i) ->
        Cyclic.next max_epochs source fuel false s <> Some (None, s')) /\
    (forall (fuel : nat) (s : Cyclic.gen_state A),
        source <> [] -> (forall i, s <> Cyclic.Done i) -> (3 <= fuel)%nat ->
        exists x s',
          Cyclic.next max_epochs source fuel false s = Some (Some x, s') /\
          (forall i, s' <> Cyclic.Done i)).
Proof.
  intros A max_epochs source. repeat split.
  - intros b s. apply step_epoch.
  - intros fuel s s'. apply next_false_never_stops.
  - intros fuel s. apply next_false_yields.
Qed.

Lemma C7_flag_gates_the_stop_not_the_counter_witness :
  exists x s',
    Cyclic.next (Some 1%Z) [7%nat] 3 false (Cyclic.InFor 5%Z []) = Some (Some x, s') /\
    (forall i, s' <> Cyclic.Done i).
Proof.
  apply (proj2 (proj2 (proj2
           (C7_flag_gates_the_stop_not_the_counter nat (Some 1%Z) [7%nat])))).
  - discriminate.
  - discriminate.
  - lia.
Defined.

(** ** The step interceptor *)

Section InterceptorFacts.
Import Interceptor.

Context {Loss Payload Rest : Type}.
Variable origin : Args Rest -> Args Rest * result (step_result Loss Payload).

(** The context manager clears the flag whatever its body did. *)
Lemma training_context_clears {R} (body : Args Rest -> Args Rest * result R) (a : Args Rest) :
  read_is_training (fst (_training_context body a)) = false.
Proof.
  unfold _training_context. destruct (body (set_is_training true a)) as [a2 r].
  reflexivity.
Qed.

(** The body runs with the flag set. *)
Lemma training_context_body {R} (body : Args Rest -> Args Rest * result R) (a : Args Rest) :
  _training_context body a =
    (set_is_training false (fst (body (set_is_training true a))),
     snd (body (set_is_training true a))) /\
  read_is_training (set_is_training true a) = true.
Proof.
  unfold _training_context. destruct (body (set_is_training true a)) as [a2 r].
  split; reflexivity.
Qed.

Lemma train_step_after (a : Args Rest) :
  read_is_training (fst (train_step origin a)) = false.
Proof. apply training_context_clears. Qed.

Lemma train_step_unfold (a : Args Rest) :
  train_step origin a =
    (set_is_training false (fst (origin (set_is_training true a))),
     match snd (origin (set_is_training true a)) with
     | inl StopIteration => ret skip_result
     | r => r
     end).
Proof.
  unfold train_step, _training_context, try_step.
  destruct (origin (set_is_training true a)) as [a1 [e|r]]; [|reflexivity].
  destruct e; reflexivity.
Qed.

(** Between the calls of a run the flag always reads false. *)
Lemma run_steps_flags (n : nat) (a : Args Rest) :
  read_is_training a = false ->
  Forall (fun b => b = false) (fst (fst (run_steps origin n a))) /\
  read_is_training (snd (fst (run_steps origin n a))) = false.
Proof.
  revert a. induction n as [|n IH]; intros a Ha; simpl.
  - split; [constructor | exact Ha].
  - pose proof (train_step_after a) as Hafter.
    destruct (train_step origin a) as [a' [e|r]]; simpl in *.
    + split; [repeat constructor; exact Ha | exact Hafter].
    + specialize (IH a' Hafter).
      destruct (run_steps origin n a') as [[bs a''] rs]. simpl in *.
      destruct IH as [IH1 IH2]. split; [constructor; assumption | exact IH2].
Qed.
End InterceptorFacts.

(** C2. When the wrapped step raises [StopIteration], [train_step] returns
    the tuple [({}, True, True, True, 0, None, None)]; any other exception
    and any normal result pass through unchanged; the wrapped step runs
    with [is_training] true; after the call the flag reads false on every
    exit path; and in a run that starts with the flag reading false it
    reads false before every call. *)
Theorem C2_train_step_skip_result_and_flag :
  forall (Loss Payload Rest : Type)
         (origin : Interceptor.Args Rest ->
                   Interceptor.Args Rest * result (Interceptor.step_result Loss Payload))
         (a : Interceptor.Args Rest),
    let entered := Interceptor.set_is_training true a in
    Interceptor.read_is_training entered = true /\
    (forall a1, origin entered = (a1, raise StopIteration) ->
       Interceptor.train_step origin a =
         (Interceptor.set_is_training false a1,
          ret (∅, true, true, true, 0%Z, None, None))) /\
    (forall a1 e, origin entered = (a1, raise e) -> e <> StopIteration ->
       Interceptor.train_step origin a =
         (Interceptor.set_is_training false a1, raise e)) /\
    (forall a1 r, origin entered = (a1, ret r) ->
       Interceptor.train_step origin a =
         (Interceptor.set_is_training false a1, ret r)) /\
    Interceptor.read_is_training (fst (Interceptor.train_step origin a)) = false /\
    (forall n, Interceptor.read_is_training a = false ->
       Forall (fun b => b = false)
              (fst (fst (Interceptor.run_steps origin n a)))).
Proof.
  intros Loss Payload Rest origin a entered.
  split; [reflexivity|].
  split; [|split; [|split; [|split]]].
  - intros a1 H. rewrite train_step_unfold. fold entered. rewrite H. reflexivity.
  - intros a1 e H He. rewrite train_step_unfold. fold entered. rewrite H. simpl.
    destruct e; try reflexivity. contradiction.
  - intros a1 r H. rewrite train_step_unfold. fold entered. rewrite H. reflexivity.
  - apply train_step_after.
  - intros n Ha. apply (run_steps_flags origin n a Ha).
Qed.

Lemma C2_train_step_skip_result_and_flag_witness :
  Interceptor.train_step (Loss := Z) (Payload := unit)
      (fun a : Interceptor.Args nat =>
         (Interceptor.mkArgs (Interceptor.is_training a) (S (Interceptor.rest a)),
          raise StopIteration))
      (Interceptor.mkArgs None 0%nat) =
    (Interceptor.mkArgs (Some false) 1%nat,
     ret (∅, true, true, true, 0%Z, None, None)) /\
  Forall (fun b => b = false)
    (fst (fst (Interceptor.run_steps (Loss := Z) (Payload := unit)
      (fun a : Interceptor.Args nat =>
         (Interceptor.mkArgs (Interceptor.is_training a) (S (Interceptor.rest a)),
          raise StopIteration))
      3 (Interceptor.mkArgs None 0%nat)))).
Proof.
  pose proof (C2_train_step_skip_result_and_flag Z unit nat
    (fun a : Interceptor.Args nat =>
       (Interceptor.mkArgs (Interceptor.is_training a) (S (Interceptor.rest a)),
        raise StopIteration))
    (Interceptor.mkArgs None 0%nat)) as (_ & Hskip & _ & _ & _ & Hrun).
  split.
  - exact (Hskip _ eq_refl).
  - exact (Hrun 3%nat eq_refl).
Defined.


(** ** The metric accumulator *)

Section AccumulatorFacts.
Import Evaluate.

Context {num : Type}.
Variable zero one : num.
Variable add div : num -> num -> num.

Local Abbreviation accumulate_key := (accumulate_key zero one add).
Local Abbreviation accumulate_dict := (accumulate_dict zero one add).
Local Abbreviation accumulate_dicts := (accumulate_dicts zero one add).
Local Abbreviation bump := (bump zero one add).

Lemma accumulate_key_lookup (key : string) (val : loss_val num)
    (total : gmap string (num * num)) (k : string) :
  accumulate_key key val total !! k =
    if decide (key = k) then bump (total !! key) val else total !! k.
Proof.
  unfold Evaluate.accumulate_key, Evaluate.bump.
  destruct (total !! key) as [p|] eqn:Hk.
  - rewrite Hk. case_decide as Heq.
    + subst. rewrite lookup_insert_eq. reflexivity.
    + rewrite lookup_insert_ne by assumption. reflexivity.
  - rewrite lookup_insert_eq. case_decide as Heq.
    + subst. rewrite lookup_insert_eq. reflexivity.
    + rewrite !lookup_insert_ne by assumption. reflexivity.
Qed.

(** One dictionary touches exactly its own keys, each once. *)
Lemma accumulate_dict_lookup (loss_dict : gmap string (loss_val num))
    (total : gmap string (num * num)) (k : string) :
  accumulate_dict loss_dict total !! k =
    match loss_dict !! k with
    | Some val => bump (total !! k) val
    | None => total !! k
    end.
Proof.
  unfold Evaluate.accumulate_dict.
  apply (map_fold_weak_ind
           (fun (r : gmap string (num * num)) (m : gmap string (loss_val num)) =>
              r !! k = match m !! k with
                       | Some val => bump (total !! k) val
                       | None => total !! k
                       end)).
  - rewrite lookup_empty. reflexivity.
  - intros i x m r Hi IH.
    rewrite accumulate_key_lookup. case_decide as Heq.
    + subst i. rewrite lookup_insert_eq. rewrite IH, Hi. reflexivity.
    + rewrite lookup_insert_ne by assumption. exact IH.
Qed.

(** A sequence of dictionaries applies, to each key, the reports made
    under that key, in order. *)
Lemma accumulate_dicts_lookup (dicts : list (gmap string (loss_val num)))
    (total : gmap string (num * num)) (k : string) :
  accumulate_dicts dicts total !! k = foldl bump (total !! k) (reported k dicts).
Proof.
  revert total. induction dicts as [|d dicts IH]; intros total; [reflexivity|].
  unfold Evaluate.accumulate_dicts in *. cbn [foldl].
  rewrite IH, accumulate_dict_lookup.
  change (reported k (d :: dicts))
    with (match d !! k with
          | Some v => v :: reported k dicts
          | None => reported k dicts
          end).
  destruct (d !! k); reflexivity.
Qed.

Lemma accumulate_dicts_app (l1 l2 : list (gmap string (loss_val num)))
    (total : gmap string (num * num)) :
  accumulate_dicts (l1 ++ l2) total = accumulate_dicts l2 (accumulate_dicts l1 total).
Proof. unfold Evaluate.accumulate_dicts. apply foldl_app. Qed.

(** Folding reports into an existing entry adds componentwise, from the
    left. *)
Lemma foldl_bump_some (vals : list (loss_val num)) (n d : num) :
  foldl bump (Some (n, d)) vals =
    Some (foldl add n (map (fun v => fst (spec_pair one v)) vals),
          foldl add d (map (fun v => snd (spec_pair one v)) vals)).
Proof.
  revert n d. induction vals as [|v vals IH]; intros n d; [reflexivity|].
  cbn [foldl map]. unfold Evaluate.bump at 2. cbn [default].
  unfold add_pair. cbn [fst snd].
  rewrite IH. destruct v; reflexivity.
Qed.

Lemma foldl_bump_none (vals : list (loss_val num)) :
  foldl bump None vals =
    match vals with
    | [] => None
    | _ => Some (sum zero add (map (fun v => fst (spec_pair one v)) vals),
                 sum zero add (map (fun v => snd (spec_pair one v)) vals))
    end.
Proof.
  destruct vals as [|v vals]; [reflexivity|].
  cbn [foldl]. unfold Evaluate.bump at 2. cbn [default].
  unfold add_pair. cbn [fst snd].
  rewrite foldl_bump_some. unfold sum. cbn [map foldl].
  destruct v; reflexivity.
Qed.

(** The finalized accumulator of a run over [dicts] is the specification's
    numerator over denominator, key by key. *)
Lemma finalize_accumulate_spec (dicts : list (gmap string (loss_val num))) (k : string) :
  finalize div (accumulate_dicts dicts ∅) !! k = metric_spec zero one add div k dicts.
Proof.
  unfold finalize, metric_spec.
  rewrite lookup_fmap, accumulate_dicts_lookup, lookup_empty, foldl_bump_none.
  destruct (reported k dicts); reflexivity.
Qed.
End AccumulatorFacts.

(** ** The evaluation loop *)

Section EvalLoopFacts.
Import Evaluate.
Local Open Scope Z_scope.

Context {num Aux : Type}.
Variable zero one : num.
Variable add div : num -> num -> num.
Variable args : Args.
Variable env : Env num Aux.
Variable all_reduce : ReduceOp -> Z -> Z -> Z.
Variable nmb : Z.

Local Abbreviation body := (iteration_body zero one add args env nmb).
Local Abbreviation reached := (time_limit_reached args env all_reduce).
Local Abbreviation loop := (eval_loop zero one add args env all_reduce).

(** The frame the early [return] leaves behind. *)
Local Abbreviation restored rm f :=
  (mkFrame (with_rerun rm (outer f)) (total_loss_dict f) (iteration f)).

Lemma reached_iteration (f g : frame num) :
  iteration f = iteration g -> reached f = reached g.
Proof. intros H. unfold time_limit_reached, done_cuda. rewrite H. reflexivity. Qed.

Lemma bodies_iteration (n : nat) (f : frame num) :
  iteration (Nat.iter n body f) = iteration f + Z.of_nat n.
Proof.
  induction n as [|n IH]; [simpl; lia|].
  cbn [Nat.iter nat_rect]. unfold iteration_body at 1. cbn [iteration].
  change (nat_rect _ f (fun _ => body) n) with (Nat.iter n body f).
  rewrite IH. lia.
Qed.

Lemma bodies_outer (n : nat) (f : frame num) :
  model (outer (Nat.iter n body f)) = model (outer f) /\
  rerun (outer (Nat.iter n body f)) = rerun (outer f) /\
  consumed_valid_samples (outer (Nat.iter n body f)) =
    consumed_valid_samples (outer f) + Z.of_nat n * global_batch_size args.
Proof.
  induction n as [|n IH]; [simpl; repeat split; lia|].
  cbn [Nat.iter nat_rect]. unfold iteration_body at 1 3 5.
  cbn [outer add_consumed model rerun consumed_valid_samples].
  change (nat_rect _ f (fun _ => body) n) with (Nat.iter n body f).
  destruct IH as (Hm & Hr & Hc). rewrite Hm, Hr, Hc. repeat split; lia.
Qed.

(** After [n] iterations from a fresh frame the accumulator holds the loss
    dictionaries of iterations [1..n], in order, on the last pipeline
    stage, and nothing elsewhere. *)
Lemma bodies_total (n : nat) (f : frame num) :
  iteration f = 0 -> total_loss_dict f = ∅ ->
  total_loss_dict (Nat.iter n body f) =
    if is_pipeline_last_stage env
    then accumulate_dicts zero one add (all_loss_dicts env nmb n) ∅
    else ∅.
Proof.
  intros Hi Ht. induction n as [|n IH].
  - simpl. rewrite Ht. destruct (is_pipeline_last_stage env); reflexivity.
  - cbn [Nat.iter nat_rect]. unfold iteration_body at 1. cbn [total_loss_dict].
    change (nat_rect _ f (fun _ => body) n) with (Nat.iter n body f).
    rewrite IH, bodies_iteration, Hi.
    destruct (is_pipeline_last_stage env); [|reflexivity].
    unfold all_loss_dicts. rewrite seq_S, flat_map_app. cbn [flat_map].
    rewrite app_nil_r, accumulate_dicts_app.
    replace (0 + Z.of_nat n + 1) with (Z.of_nat (S (0 + n))) by lia.
    reflexivity.
Qed.

(** No early exit: the loop runs its [n] iterations. *)
Lemma eval_loop_completes (rm : RerunMode) (n : nat) (f : frame num) :
  (forall k, (k < n)%nat -> reached (Nat.iter (S k) body f) = false) ->
  ((0 < n)%nat -> iteration f + Z.of_nat n <= eval_iters args) ->
  loop n rm nmb f = (Nat.iter n body f, false).
Proof.
  revert f. induction n as [|n IH]; intros f Hno Hle; [reflexivity|].
  cbn [Evaluate.eval_loop].
  case_decide as Htest; [|lia].
  pose proof (Hno 0%nat ltac:(lia)) as H0. cbn [Nat.iter nat_rect] in H0.
  cbv zeta. rewrite H0.
  rewrite Nat.iter_succ_r. apply IH.
  - intros k Hk. rewrite <- Nat.iter_succ_r. apply Hno. lia.
  - intros Hn. unfold iteration_body. cbn [iteration]. lia.
Qed.

(** First positive check at iteration [m + 1]: the loop returns there. *)
Lemma eval_loop_aborts (rm : RerunMode) (n m : nat) (f : frame num) :
  (m < n)%nat ->
  (forall k, (k < m)%nat -> reached (Nat.iter (S k) body f) = false) ->
  reached (Nat.iter (S m) body f) = true ->
  iteration f + Z.of_nat (S m) <= eval_iters args ->
  loop n rm nmb f = (restored rm (Nat.iter (S m) body f), true).
Proof.
  revert m f. induction n as [|n IH]; intros m f Hm Hno Hyes Hle; [lia|].
  cbn [Evaluate.eval_loop].
  case_decide as Htest; [|lia].
  cbv zeta. destruct m as [|m].
  - cbn [Nat.iter nat_rect] in Hyes |- *. rewrite Hyes. reflexivity.
  - pose proof (Hno 0%nat ltac:(lia)) as H0. cbn [Nat.iter nat_rect] in H0.
    rewrite H0.
    rewrite (Nat.iter_succ_r (S m)). apply IH.
    + lia.
    + intros k Hk. rewrite <- Nat.iter_succ_r. apply Hno. lia.
    + rewrite <- Nat.iter_succ_r. exact Hyes.
    + unfold iteration_body. cbn [iteration]. lia.
Qed.

(** What the loop's answer tells about the frame it returns. *)
Lemma eval_loop_inv (rm : RerunMode) (n : nat) (f f' : frame num) (aborted : bool) :
  loop n rm nmb f = (f', aborted) ->
  model (outer f') = model (outer f) /\
  rerun (outer f') = (if aborted then rm else rerun (outer f)) /\
  (if aborted
   then reached f' = true /\ exists m, (m < n)%nat /\ f' = restored rm (Nat.iter (S m) body f)
   else exists m, (m <= n)%nat /\ f' = Nat.iter m body f /\
                  (m = n \/ ~ iteration f' < eval_iters args)).
Proof.
  revert f. induction n as [|n IH]; intros f H.
  - injection H as <- <-. repeat split. exists 0%nat. auto.
  - cbn [Evaluate.eval_loop] in H. case_decide as Htest.
    + destruct (reached (body f)) eqn:Hr.
      * injection H as <- <-. cbn [outer iteration].
        split; [reflexivity|]. split; [reflexivity|]. split.
        { rewrite <- Hr. apply reached_iteration. reflexivity. }
        exists 0%nat. split; [lia | reflexivity].
      * apply IH in H. destruct H as (Hm & Hrr & Hrest).
        split; [rewrite Hm; reflexivity|].
        split; [rewrite Hrr; destruct aborted; reflexivity|].
        destruct aborted.
        { destruct Hrest as (Hreach & m & Hlt & ->). split; [exact Hreach|].
          exists (S m). split; [lia|]. rewrite (Nat.iter_succ_r (S m)). reflexivity. }
        { destruct Hrest as (m & Hle & -> & Hend).
          exists (S m). split; [lia|]. rewrite Nat.iter_succ_r.
          split; [reflexivity|]. destruct Hend; [left; lia | right; assumption]. }
    + injection H as <- <-. repeat split. exists 0%nat.
      split; [lia|]. split; [reflexivity|]. right. exact Htest.
Qed.

(** From a fresh frame the fuel [Z.to_nat eval_iters] is exactly what the
    [while] test allows: a normal exit has run all the iterations. *)
Lemma eval_loop_normal_exit (rm : RerunMode) (w : world) (f' : frame num) :
  loop (Z.to_nat (eval_iters args)) rm nmb (mkFrame w ∅ 0) = (f', false) ->
  f' = Nat.iter (Z.to_nat (eval_iters args)) body (mkFrame w ∅ 0) /\
  ~ iteration f' < eval_iters args.
Proof.
  intros H. apply eval_loop_inv in H as (_ & _ & m & Hle & Hf & Hend).
  assert (Hit : iteration f' = Z.of_nat m).
  { rewrite Hf, bodies_iteration. cbn [iteration]. lia. }
  destruct Hend as [-> | Hend].
  - split; [exact Hf | lia].
  - assert (m = Z.to_nat (eval_iters args)) as -> by lia.
    split; [exact Hf | exact Hend].
Qed.
End EvalLoopFacts.

(** ** The fleet-wide time-limit check *)

Section FleetFacts.
Import Evaluate.
Local Open Scope Z_scope.

Context {num Aux : Type}.
Variable zero one : num.
Variable add div : num -> num -> num.
Variable args : Args.
Variable ws : list (worker num Aux).

Lemma foldl_max_b2z {X} (p : X -> bool) (l : list X) (b : bool) :
  foldl Z.max (Z.b2z b) (map (fun x => Z.b2z (p x)) l) = Z.b2z (b || existsb p l).
Proof.
  revert b. induction l as [|x l IH]; intros b; cbn [map foldl existsb].
  - rewrite orb_false_r. reflexivity.
  - replace (Z.max (Z.b2z b) (Z.b2z (p x))) with (Z.b2z (b || p x))
      by (destruct b, (p x); reflexivity).
    rewrite IH, orb_assoc. reflexivity.
Qed.

(** MAX over what the ranks hand over is the disjunction of their local
    comparisons. *)
Lemma reduce_MAX_handed_over (it : Z) :
  reduce MAX (handed_over ws it) =
    Z.b2z (existsb (fun w => time_exceeded (w_env w) it) ws).
Proof.
  unfold reduce, handed_over, all_reduce_MAX, done_cuda. cbn [iteration].
  destruct ws as [|w rest]; [reflexivity|].
  cbn [map existsb]. apply (foldl_max_b2z (fun w => time_exceeded (w_env w) it)).
Qed.

(** A rank that hands over its own [done_cuda] finds it on the table. *)
Lemma own_entry (r : nat) (w : worker num Aux) (f : frame num) :
  ws !! r = Some w ->
  <[r := done_cuda (w_env w) f]> (handed_over ws (iteration f)) =
    handed_over ws (iteration f).
Proof.
  intros Hr. apply list_insert_id. unfold handed_over.
  rewrite list_lookup_fmap, Hr. reflexivity.
Qed.

Lemma fleet_reached (r : nat) (w : worker num Aux) (f : frame num) :
  ws !! r = Some w ->
  time_limit_reached args (w_env w) (fleet_all_reduce ws r) f =
    truthy (exit_duration_in_mins args) &&
    existsb (fun v => time_exceeded (w_env v) (iteration f)) ws.
Proof.
  intros Hr. unfold time_limit_reached, fleet_all_reduce.
  rewrite (own_entry r w f Hr), reduce_MAX_handed_over.
  destruct (truthy (exit_duration_in_mins args)); [|reflexivity].
  destruct (existsb _ ws); reflexivity.
Qed.

Lemma truthy_positive (d : Z) : 0 < d -> truthy (Some d) = true.
Proof. intros Hd. unfold truthy. destruct (Z.eqb_spec d 0); [lia | reflexivity]. Qed.

Lemma existsb_false_all {X} (p : X -> bool) (l : list X) :
  (forall x, In x l -> p x = false) -> existsb p l = false.
Proof.
  intros H. destruct (existsb p l) eqn:E; [|reflexivity].
  apply existsb_exists in E as (x & Hx & Hp). rewrite (H x Hx) in Hp. discriminate.
Qed.

(** Some local flag true at iteration [j], none before: the rank leaves
    through the early [return] of iteration [j]. *)
Lemma fleet_worker_aborts (r : nat) (w : worker num Aux) (d j : Z) :
  ws !! r = Some w ->
  exit_duration_in_mins args = Some d -> 0 < d ->
  micro_batch_size args * data_parallel_size args <> 0 ->
  1 <= j <= eval_iters args ->
  (forall j', 1 <= j' < j -> forall v, In v ws -> time_exceeded (w_env v) j' = false) ->
  (exists v, In v ws /\ time_exceeded (w_env v) j = true) ->
  exists f,
    evaluate zero one add div args (w_env w) (fleet_all_reduce ws r) (w_world w) =
      (f, ret (None, None, true)) /\
    iteration f = j.
Proof.
  intros Hr Hd Hpos Hdiv Hj Hbefore Hat.
  unfold evaluate. rewrite (floordiv_ok _ _ Hdiv).
  set (nmb := global_batch_size args / (micro_batch_size args * data_parallel_size args)).
  set (f0 := mkFrame _ ∅ 0).
  set (rm := rerun _).
  rewrite (eval_loop_aborts zero one add args (w_env w) (fleet_all_reduce ws r) nmb rm
             (Z.to_nat (eval_iters args)) (Z.to_nat (j - 1)) f0).
  - eexists. split; [reflexivity|]. cbn [iteration].
    rewrite bodies_iteration. subst f0. cbn [iteration]. lia.
  - lia.
  - intros k Hk. rewrite (fleet_reached r w _ Hr), bodies_iteration.
    subst f0. cbn [iteration].
    rewrite existsb_false_all; [apply andb_false_r|].
    intros v Hv. apply Hbefore; [lia | exact Hv].
  - rewrite (fleet_reached r w _ Hr), bodies_iteration, Hd, (truthy_positive d Hpos).
    subst f0. cbn [iteration andb].
    replace (0 + Z.of_nat (S (Z.to_nat (j - 1)))) with j by lia.
    apply existsb_exists. destruct Hat as (v & Hv & Ht). exists v. auto.
  - subst f0. cbn [iteration]. lia.
Qed.

(** No local flag true at iteration [j]: the rank does not leave through
    the early [return] of iteration [j]. *)
Lemma fleet_worker_stays (r : nat) (w : worker num Aux) (j : Z) (f : frame num) :
  ws !! r = Some w ->
  (forall v, In v ws -> time_exceeded (w_env v) j = false) ->
  evaluate zero one add div args (w_env w) (fleet_all_reduce ws r) (w_world w) =
    (f, ret (None, None, true)) ->
  iteration f <> j.
Proof.
  intros Hr Hnone. unfold evaluate.
  destruct (floordiv _ _) as [e|nmb]; [discriminate|].
  destruct (eval_loop _ _ _ _ _ _ _ _ _ _) as [f' aborted] eqn:Hloop.
  destruct aborted.
  - intros [= ->]. apply eval_loop_inv in Hloop as (_ & _ & Hreach & _).
    intros Hit. rewrite (fleet_reached r w _ Hr), Hit, (existsb_false_all _ _ Hnone) in Hreach.
    rewrite andb_false_r in Hreach. discriminate.
  - destruct (collect _ _ _); discriminate.
Qed.

(** A property of every rank's outcome is a property of every entry of
    the fleet's result. *)
Lemma fleet_evaluate_Forall
    (P : frame num * result (eval_result num Aux) -> Prop) :
  (forall r w, ws !! r = Some w ->
     P (evaluate zero one add div args (w_env w) (fleet_all_reduce ws r) (w_world w))) ->
  Forall P (fleet_evaluate zero one add div args ws).
Proof.
  intros H. apply Forall_lookup. intros r x Hx.
  unfold fleet_evaluate in Hx. rewrite list_lookup_imap in Hx.
  destruct (ws !! r) as [w|] eqn:Hr; [|discriminate].
  injection Hx as <-. apply H. exact Hr.
Qed.
End FleetFacts.



(** ** Modes, accumulator and metrics at the return of [evaluate] *)

Section EvaluateFacts.
Import Evaluate.
Local Open Scope Z_scope.

Context {num Aux : Type}.
Variable zero one : num.
Variable add div : num -> num -> num.
Variable args : Args.
Variable env : Env num Aux.
Variable all_reduce : ReduceOp -> Z -> Z -> Z.

Local Abbreviation evaluate := (evaluate zero one add div args env all_reduce).

(** A returning call computed the microbatch count of line 129. *)
Lemma floordiv_inv (a b q : Z) : floordiv a b = inr q -> b <> 0 /\ q = a / b.
Proof. unfold floordiv. case_decide; [discriminate|]. intros [= <-]. auto. Qed.

(** Modes at a return: the rerun mode is the one found at entry on both
    paths; the modules are back in training mode after a normal
    completion and still in evaluation mode after the early exit. *)
Lemma evaluate_modes (w : world) (f : frame num) metrics aux (aborted : bool) :
  evaluate w = (f, ret (metrics, aux, aborted)) ->
  rerun (outer f) = rerun w /\
  model (outer f) =
    map (fun _ => if aborted then EvalMode else TrainMode) (model w).
Proof.
  unfold Evaluate.evaluate.
  destruct (floordiv _ _) as [e|nmb]; [discriminate|].
  destruct (eval_loop _ _ _ _ _ _ _ _ _ _) as [f' ab] eqn:Hloop.
  apply eval_loop_inv in Hloop as (Hm & Hr & _). cbn [outer model rerun with_rerun with_model] in Hm, Hr.
  destruct ab.
  - intros [= <- <- <- <-]. split; [exact Hr | exact Hm].
  - destruct (collect _ _ _) as [e|c]; [discriminate|].
    intros [= <- <- <- <-]. cbn [outer model rerun with_rerun with_model].
    split; [reflexivity|]. rewrite Hm, map_map. reflexivity.
Qed.

(** The early exit of iteration [j] comes after the accumulation of
    iteration [j]. *)
Lemma evaluate_abort_frame (w : world) (j : Z) :
  micro_batch_size args * data_parallel_size args <> 0 ->
  1 <= j <= eval_iters args ->
  (forall j', 1 <= j' < j ->
     time_limit_reached args env all_reduce (mkFrame w ∅ j') = false) ->
  time_limit_reached args env all_reduce (mkFrame w ∅ j) = true ->
  let nmb := global_batch_size args / (micro_batch_size args * data_parallel_size args) in
  exists f,
    evaluate w = (f, ret (None, None, true)) /\
    iteration f = j /\
    total_loss_dict f =
      if is_pipeline_last_stage env
      then accumulate_dicts zero one add (forward_backward_func env j nmb)
             (accumulate_dicts zero one add (all_loss_dicts env nmb (Z.to_nat (j - 1))) ∅)
      else ∅.
Proof.
  intros Hdiv Hj Hbefore Hat nmb.
  unfold Evaluate.evaluate. rewrite (floordiv_ok _ _ Hdiv). fold nmb.
  set (f0 := mkFrame _ ∅ 0).
  set (rm := rerun _).
  rewrite (eval_loop_aborts zero one add args env all_reduce nmb rm
             (Z.to_nat (eval_iters args)) (Z.to_nat (j - 1)) f0).
  - eexists. split; [reflexivity|]. cbn [iteration total_loss_dict].
    split.
    + rewrite bodies_iteration. subst f0. cbn [iteration]. lia.
    + rewrite bodies_total by reflexivity.
      destruct (is_pipeline_last_stage env); [|reflexivity].
      unfold all_loss_dicts. rewrite seq_S, flat_map_app. cbn [flat_map].
      rewrite app_nil_r, accumulate_dicts_app.
      replace (Z.of_nat (S (0 + Z.to_nat (j - 1)))) with j by lia.
      reflexivity.
  - lia.
  - intros k Hk.
    rewrite (reached_iteration args env all_reduce _ (mkFrame w ∅ (Z.of_nat (S k)))).
    + apply Hbefore. lia.
    + rewrite bodies_iteration. subst f0. cbn [iteration]. lia.
  - rewrite (reached_iteration args env all_reduce _ (mkFrame w ∅ j)); [exact Hat|].
    rewrite bodies_iteration. subst f0. cbn [iteration]. lia.
  - subst f0. cbn [iteration]. lia.
Qed.

(** After a normal completion on the last pipeline stage the metrics are
    the finalized accumulator of all [eval_iters] iterations. *)
Lemma evaluate_normal_metrics (w : world) (f : frame num) metrics aux :
  is_pipeline_last_stage env = true ->
  evaluate w = (f, ret (Some metrics, aux, false)) ->
  let nmb := global_batch_size args / (micro_batch_size args * data_parallel_size args) in
  metrics =
    finalize div (accumulate_dicts zero one add
                    (all_loss_dicts env nmb (Z.to_nat (eval_iters args))) ∅).
Proof.
  intros Hlast Hret nmb. subst nmb. revert Hret. unfold Evaluate.evaluate.
  destruct (floordiv _ _) as [e|nmb'] eqn:Hfd; [discriminate|].
  apply floordiv_inv in Hfd as [_ ->].
  destruct (eval_loop _ _ _ _ _ _ _ _ _ _) as [f' ab] eqn:Hloop.
  destruct ab; [discriminate|].
  apply eval_loop_normal_exit in Hloop as [Hf' _].
  destruct (collect _ _ _) as [e|c]; [discriminate|].
  intros H. injection H as _ Hmetrics _. rewrite <- Hmetrics. f_equal.
  rewrite Hf', bodies_total by reflexivity. rewrite Hlast.
  reflexivity.
Qed.

(** With no time limit configured, defined arithmetic and a collector
    that can run, the call completes normally. *)
Lemma evaluate_completes (w : world) :
  exit_duration_in_mins args = None ->
  micro_batch_size args * data_parallel_size args <> 0 ->
  (non_loss_data_func env = None ->
   process_non_loss_data_func env && is_last_rank env = true ->
   0 < eval_iters args) ->
  exists f metrics aux, evaluate w = (f, ret (Some metrics, aux, false)).
Proof.
  intros Hnone Hdiv Hcoll. unfold Evaluate.evaluate.
  rewrite (floordiv_ok _ _ Hdiv).
  rewrite eval_loop_completes.
  - unfold collect. destruct (non_loss_data_func env) as [g|].
    + eexists _, _, _. reflexivity.
    + destruct (process_non_loss_data_func env && is_last_rank env) eqn:Hp.
      * case_decide as H0; [|specialize (Hcoll eq_refl eq_refl); lia].
        eexists _, _, _. reflexivity.
      * eexists _, _, _. reflexivity.
  - intros k _. unfold time_limit_reached. rewrite Hnone. reflexivity.
  - intros Hn. cbn [iteration]. lia.
Qed.

Lemma spec_pairs_paired (vws : list (num * num)) :
  map (fun v => fst (spec_pair one v)) (map (fun p => Paired (fst p) (snd p)) vws) = map fst vws /\
  map (fun v => snd (spec_pair one v)) (map (fun p => Paired (fst p) (snd p)) vws) = map snd vws.
Proof. rewrite !map_map. split; apply map_ext; intros [v x]; reflexivity. Qed.

Lemma spec_pairs_scalar (vs : list num) :
  map (fun v => fst (spec_pair one v)) (map Scalar vs) = vs /\
  map (fun v => snd (spec_pair one v)) (map Scalar vs) = repeat one (length vs).
Proof.
  induction vs as [|v vs [IH1 IH2]]; [split; reflexivity|].
  cbn [map length repeat spec_pair fst snd]. rewrite IH1, IH2. split; reflexivity.
Qed.
End EvaluateFacts.

(** C5. What the code does at its two returns: the rerun mode found at
    entry is restored on both; the modules are back in training mode
    after a normal completion, but after the time-limit exit every module
    is still in evaluation mode, because the early [return] of line 185
    comes before the [model_module.train()] loop of lines 203-204. *)
Theorem C5_early_exit_leaves_modules_in_eval_mode :
  forall (num Aux : Type) (zero one : num) (add div : num -> num -> num)
         (args : Evaluate.Args) (env : Evaluate.Env num Aux)
         (all_reduce : Evaluate.ReduceOp -> Z -> Z -> Z) (w : Evaluate.world) (f : Evaluate.frame num)
         (metrics : option (gmap string num)) (aux : option Aux) (aborted : bool),
    Evaluate.evaluate zero one add div args env all_reduce w =
      (f, ret (metrics, aux, aborted)) ->
    Evaluate.rerun (Evaluate.outer f) = Evaluate.rerun w /\
    Evaluate.model (Evaluate.outer f) =
      map (fun _ => if aborted then Evaluate.EvalMode else Evaluate.TrainMode)
          (Evaluate.model w).
Proof.
  intros num Aux zero one add div args env all_reduce w f metrics aux aborted.
  apply evaluate_modes.
Qed.

Lemma C5_early_exit_leaves_modules_in_eval_mode_witness :
  let args := Evaluate.mkArgs 1 2 1 1 (Some 1%Z) in
  let env := Evaluate.mkEnv (num := Z) (Aux := unit) true true
               (fun _ _ => [{[ "lm loss"%string := Evaluate.Scalar 3%Z ]}])
               (fun _ => true) None false tt in
  let w := Evaluate.mkWorld [Evaluate.TrainMode; Evaluate.TrainMode]
             Evaluate.VALIDATE_RESULTS 0 in
  let r := Evaluate.evaluate 0%Z 1%Z Z.add Z.div args env (fun _ _ c => c) w in
  snd r = ret (None, None, true) /\
  Evaluate.rerun (Evaluate.outer (fst r)) = Evaluate.VALIDATE_RESULTS /\
  Evaluate.model (Evaluate.outer (fst r)) = [Evaluate.EvalMode; Evaluate.EvalMode].
Proof.
  intros args env w r.
  assert (Hr : r = (fst r, ret (None, None, true))) by (vm_compute; reflexivity).
  split; [rewrite Hr; reflexivity|].
  exact (C5_early_exit_leaves_modules_in_eval_mode Z unit 0%Z 1%Z Z.add Z.div
           args env (fun _ _ c => c) w (fst r) None None true Hr).
Defined.

(** C6, as stated, fails: with one iteration whose time-limit check is
    positive, the frame the early [return] leaves has the loss reported in
    that very iteration in [total_loss_dict], which therefore differs from
    the accumulation of the iterations before it (here: none). *)
Lemma C6_exit_frame_holds_the_tripping_iteration :
  let args := Evaluate.mkArgs 1 2 1 1 (Some 1%Z) in
  let env := Evaluate.mkEnv (num := Z) (Aux := unit) true true
               (fun _ _ => [{[ "lm loss"%string := Evaluate.Scalar 3%Z ]}])
               (fun _ => true) None false tt in
  let w := Evaluate.mkWorld [Evaluate.TrainMode] Evaluate.VALIDATE_RESULTS 0 in
  let r := Evaluate.evaluate 0%Z 1%Z Z.add Z.div args env (fun _ _ c => c) w in
  snd r = ret (None, None, true) /\
  Evaluate.iteration (fst r) = 1%Z /\
  Evaluate.total_loss_dict (fst r) !! "lm loss"%string = Some (3%Z, 1%Z) /\
  Evaluate.total_loss_dict (fst r) <>
    Evaluate.accumulate_dicts 0%Z 1%Z Z.add (Evaluate.all_loss_dicts env 2%Z 0) ∅.
Proof.
  intros args env w r.
  split; [vm_compute; reflexivity|].
  split; [vm_compute; reflexivity|].
  split; [vm_compute; reflexivity|].
  intros H. apply (f_equal (fun m => m !! "lm loss"%string)) in H.
  vm_compute in H. discriminate H.
Qed.

(** C6, amended. When the time-limit check is first positive at iteration
    [j], [evaluate] returns [(None, None, True)] in iteration [j] after
    that iteration's loss dictionaries were accumulated: on the last
    pipeline stage the frame's [total_loss_dict] is the accumulation of
    iterations [1..j-1] extended by the dictionaries of iteration [j]
    (and empty on the other stages); the accumulator is dropped, since the
    returned metrics are [None]. *)
Theorem C6_early_exit_follows_the_accumulation :
  forall (num Aux : Type) (zero one : num) (add div : num -> num -> num)
         (args : Evaluate.Args) (env : Evaluate.Env num Aux)
         (all_reduce : Evaluate.ReduceOp -> Z -> Z -> Z) (w : Evaluate.world) (j : Z),
    (Evaluate.micro_batch_size args * Evaluate.data_parallel_size args <> 0)%Z ->
    (1 <= j <= Evaluate.eval_iters args)%Z ->
    (forall j', (1 <= j' < j)%Z ->
       Evaluate.time_limit_reached args env all_reduce (Evaluate.mkFrame w ∅ j') = false) ->
    Evaluate.time_limit_reached args env all_reduce (Evaluate.mkFrame w ∅ j) = true ->
    let nmb := (Evaluate.global_batch_size args /
                (Evaluate.micro_batch_size args * Evaluate.data_parallel_size args))%Z in
    exists f,
      Evaluate.evaluate zero one add div args env all_reduce w =
        (f, ret (None, None, true)) /\
      Evaluate.iteration f = j /\
      Evaluate.total_loss_dict f =
        if Evaluate.is_pipeline_last_stage env
        then Evaluate.accumulate_dicts zero one add
               (Evaluate.forward_backward_func env j nmb)
               (Evaluate.accumulate_dicts zero one add
                  (Evaluate.all_loss_dicts env nmb (Z.to_nat (j - 1))) ∅)
        else ∅.
Proof.
  intros num Aux zero one add div args env all_reduce w j.
  apply evaluate_abort_frame.
Qed.

Lemma C6_early_exit_follows_the_accumulation_witness :
  let args := Evaluate.mkArgs 3 2 1 1 (Some 1%Z) in
  let env := Evaluate.mkEnv (num := Z) (Aux := unit) true true
               (fun it _ => [{[ "lm loss"%string := Evaluate.Scalar it ]}])
               (fun it => (2 <=? it)%Z) None false tt in
  let w := Evaluate.mkWorld [Evaluate.TrainMode] Evaluate.VALIDATE_RESULTS 0 in
  exists f,
    Evaluate.evaluate 0%Z 1%Z Z.add Z.div args env (fun _ _ c => c) w =
      (f, ret (None, None, true)) /\
    Evaluate.iteration f = 2%Z /\
    Evaluate.total_loss_dict f !! "lm loss"%string = Some (3%Z, 2%Z).
Proof.
  intros args env w.
  destruct (C6_early_exit_follows_the_accumulation Z unit 0%Z 1%Z Z.add Z.div
              args env (fun _ _ c => c) w 2%Z) as (f & Hrun & Hit & Htot).
  - simpl. lia.
  - simpl. lia.
  - intros j' Hj'. assert (j' = 1%Z) as -> by lia. reflexivity.
  - reflexivity.
  - exists f. split; [exact Hrun|]. split; [exact Hit|].
    rewrite Htot. vm_compute. reflexivity.
Defined.

(** C8. After a normal completion on the last pipeline stage, the metric
    of every key is numerator over denominator, where each report under
    the key, over all microbatches of all iterations in order, adds
    [(v, w)] if it is a pair and [(v, 1)] if it is a scalar; so a key only
    reported as pairs ends as [sum v / sum w], and a key reported [k]
    times as a scalar ends as [sum v / (1 + ... + 1)] with [k] ones. All
    sums run left to right from zero, as the code adds. *)
Theorem C8_metric_is_numerator_over_denominator :
  forall (num Aux : Type) (zero one : num) (add div : num -> num -> num)
         (args : Evaluate.Args) (env : Evaluate.Env num Aux)
         (all_reduce : Evaluate.ReduceOp -> Z -> Z -> Z) (w : Evaluate.world) (f : Evaluate.frame num)
         (metrics : gmap string num) (aux : option Aux),
    Evaluate.is_pipeline_last_stage env = true ->
    Evaluate.evaluate zero one add div args env all_reduce w =
      (f, ret (Some metrics, aux, false)) ->
    let nmb := (Evaluate.global_batch_size args /
                (Evaluate.micro_batch_size args * Evaluate.data_parallel_size args))%Z in
    let dicts := Evaluate.all_loss_dicts env nmb (Z.to_nat (Evaluate.eval_iters args)) in
    (forall key, metrics !! key = Evaluate.metric_spec zero one add div key dicts) /\
    (forall key (vws : list (num * num)),
        vws <> [] ->
        Evaluate.reported key dicts =
          map (fun p => Evaluate.Paired (fst p) (snd p)) vws ->
        metrics !! key =
          Some (div (Evaluate.sum zero add (map fst vws))
                    (Evaluate.sum zero add (map snd vws)))) /\
    (forall key (vs : list num),
        vs <> [] ->
        Evaluate.reported key dicts = map Evaluate.Scalar vs ->
        metrics !! key =
          Some (div (Evaluate.sum zero add vs)
                    (Evaluate.sum zero add (repeat one (length vs))))).
Proof.
  intros num Aux zero one add div args env all_reduce w f metrics aux Hlast Hret nmb dicts.
  assert (Hspec : forall key,
             metrics !! key = Evaluate.metric_spec zero one add div key dicts).
  { intros key.
    rewrite (evaluate_normal_metrics zero one add div args env all_reduce
               w f metrics aux Hlast Hret).
    apply finalize_accumulate_spec. }
  assert (Hsome : forall key vals,
             Evaluate.reported key dicts = vals -> vals <> [] ->
             Evaluate.metric_spec zero one add div key dicts =
               Some (div (Evaluate.sum zero add
                            (map (fun v => fst (Evaluate.spec_pair one v)) vals))
                         (Evaluate.sum zero add
                            (map (fun v => snd (Evaluate.spec_pair one v)) vals)))).
  { intros key vals Hrep Hne. unfold Evaluate.metric_spec. rewrite Hrep.
    destruct vals; [contradiction | reflexivity]. }
  split; [exact Hspec|]. split.
  - intros key vws Hne Hrep. rewrite Hspec, (Hsome key _ Hrep).
    + destruct (spec_pairs_paired one vws) as [-> ->]. reflexivity.
    + destruct vws; [contradiction | discriminate].
  - intros key vs Hne Hrep. rewrite Hspec, (Hsome key _ Hrep).
    + destruct (spec_pairs_scalar one vs) as [-> ->]. reflexivity.
    + destruct vs; [contradiction | discriminate].
Qed.

Lemma C8_metric_is_numerator_over_denominator_witness :
  let args := Evaluate.mkArgs 2 2 1 1 None in
  let env := Evaluate.mkEnv (num := Z) (Aux := unit) true true
               (fun it _ =>
                  if (it =? 1)%Z
                  then [{[ "lm loss"%string := Evaluate.Paired 6%Z 2%Z;
                           "acc"%string := Evaluate.Scalar 4%Z ]}]
                  else [{[ "lm loss"%string := Evaluate.Paired 2%Z 2%Z;
                           "acc"%string := Evaluate.Scalar 6%Z ]}])
               (fun _ => false) None false tt in
  let w := Evaluate.mkWorld [Evaluate.TrainMode] Evaluate.VALIDATE_RESULTS 0 in
  exists f metrics aux,
    Evaluate.evaluate 0%Z 1%Z Z.add Z.div args env (fun _ _ c => c) w =
      (f, ret (Some metrics, aux, false)) /\
    metrics !! "lm loss"%string = Some 2%Z /\
    metrics !! "acc"%string = Some 5%Z.
Proof.
  intros args env w.
  destruct (evaluate_completes 0%Z 1%Z Z.add Z.div args env (fun _ _ c => c) w)
    as (f & metrics & aux & Hrun).
  - reflexivity.
  - simpl. lia.
  - intros _ H. discriminate H.
  - exists f, metrics, aux. split; [exact Hrun|].
    destruct (C8_metric_is_numerator_over_denominator Z unit 0%Z 1%Z Z.add Z.div
                args env (fun _ _ c => c) w f metrics aux eq_refl Hrun)
      as (_ & Hpaired & Hscalar).
    split.
    + rewrite (Hpaired "lm loss"%string [(6%Z, 2%Z); (2%Z, 2%Z)]).
      * reflexivity.
      * discriminate.
      * vm_compute. reflexivity.
    + rewrite (Hscalar "acc"%string [4%Z; 6%Z]).
      * reflexivity.
      * discriminate.
      * vm_compute. reflexivity.
Defined.

(** * Further properties of the code *)

(** ** Startup derivation *)

Section GetItersMore.
Import GetIters.
Local Open Scope Z_scope.

(** Nothing is derived when nothing is missing. *)
Lemma initialize_explicit (train : dataset) (val : option dataset) (dp t : Z) (a : Args) :
  train_iters a = Some t -> val = None \/ 0 <= eval_iters a ->
  initialize_megatron train val dp a = (a, ret tt).
Proof.
  intros Ht Hv. unfold initialize_megatron, derive_train_iters. rewrite Ht.
  unfold derive_eval_iters. destruct Hv as [-> | Hv]; [reflexivity|].
  destruct val as [ds|]; [|reflexivity]. case_decide; [lia | reflexivity].
Qed.

(** What a normal return guarantees about the two budgets. *)
Lemma initialize_post (train : dataset) (val : option dataset) (dp : Z) (a a' : Args) :
  initialize_megatron train val dp a = (a', ret tt) ->
  is_Some (train_iters a') /\ (is_Some val -> 0 <= eval_iters a').
Proof.
  unfold initialize_megatron.
  set (sbs := micro_batch_size a * dp).
  destruct (derive_train_iters train sbs a) as [a1 [e|[]]] eqn:Hd; [discriminate|].
  assert (Ht1 : is_Some (train_iters a1)).
  { revert Hd. unfold derive_train_iters.
    destruct (train_iters a) as [t|] eqn:Ht.
    - intros [= <-]. rewrite Ht. eauto.
    - destruct train as [n|]; [|discriminate].
      destruct (floordiv (Z.of_N n) sbs) as [e|q]; [discriminate|]. simpl.
      destruct (max_epochs a) as [me|]; [|discriminate]. simpl.
      destruct (floordiv (q * sbs * me) (global_batch_size a)) as [e|x]; [discriminate|].
      simpl. intros [= <-]. simpl. eauto. }
  intros Hv.
  destruct (derive_eval_iters_frame val sbs a1) as (Ht & _). rewrite Hv in Ht. simpl in Ht.
  split; [rewrite Ht; exact Ht1|].
  intros [ds ->]. revert Hv. unfold derive_eval_iters.
  case_decide as Hneg.
  - destruct ds as [n|]; [|discriminate].
    destruct (floordiv (Z.of_N n) sbs) as [e|q]; [discriminate|]. simpl.
    destruct (floordiv (q * sbs) (global_batch_size a1)) as [e|x]; [discriminate|].
    simpl. intros [= <-]. simpl. lia.
  - intros [= <-]. lia.
Qed.

(** Batch sizes and [max_epochs] are read only; a raise never comes with a
    changed [eval_iters]. *)
Lemma initialize_frame (train : dataset) (val : option dataset) (dp : Z) (a : Args) :
  let out := initialize_megatron train val dp a in
  micro_batch_size (fst out) = micro_batch_size a /\
  global_batch_size (fst out) = global_batch_size a /\
  max_epochs (fst out) = max_epochs a /\
  (forall e, snd out = raise e -> eval_iters (fst out) = eval_iters a).
Proof.
  unfold initialize_megatron.
  set (sbs := micro_batch_size a * dp).
  pose proof (derive_train_iters_frame train sbs a) as (He & Hm & Hg).
  assert (Hme : max_epochs (fst (derive_train_iters train sbs a)) = max_epochs a).
  { unfold derive_train_iters. destruct (train_iters a); [reflexivity|].
    destruct train as [n|]; [|reflexivity].
    destruct (floordiv (Z.of_N n) sbs) as [e|q]; [reflexivity|]. simpl.
    destruct (max_epochs a) as [me|] eqn:E; simpl; [|exact E].
    destruct (floordiv (q * sbs * me) (global_batch_size a)); simpl; exact E. }
  destruct (derive_train_iters train sbs a) as [a1 [e|[]]]; simpl in *.
  - repeat split; auto.
  - pose proof (derive_eval_iters_frame val sbs a1) as (_ & Hm' & Hg' & Hme').
    simpl in *. repeat split; try congruence.
    intros e. unfold derive_eval_iters.
    destruct val as [[n|]|]; try case_decide; simpl; try discriminate; try congruence.
    destruct (floordiv (Z.of_N n) sbs) as [e'|q]; simpl; [congruence|].
    destruct (floordiv (q * sbs) (global_batch_size a1)) as [e'|x]; simpl;
      [congruence | discriminate].
Qed.

(** Floor division brackets its argument. *)
Lemma div_bracket (x g : Z) : 0 < g -> g * (x / g) <= x < g * (x / g) + g.
Proof.
  intros Hg. pose proof (Z.div_mod x g ltac:(lia)) as Hdm.
  pose proof (Z.mod_pos_bound x g Hg). lia.
Qed.
End GetItersMore.

(** X1. With an explicit [train_iters], and either no validation dataset
    or a non-negative [eval_iters], startup changes nothing and cannot
    raise, even for streaming datasets and zero batch sizes. *)
Theorem X1_explicit_budgets_are_kept :
  forall (train : GetIters.dataset) (val : option GetIters.dataset) (dp t : Z)
         (a : GetIters.Args),
    GetIters.train_iters a = Some t ->
    val = None \/ (0 <= GetIters.eval_iters a)%Z ->
    GetIters.initialize_megatron train val dp a = (a, ret tt).
Proof. exact initialize_explicit. Qed.

Lemma X1_explicit_budgets_are_kept_witness :
  GetIters.initialize_megatron None (Some None) 0
    (GetIters.mkArgs 0 0 (Some 100%Z) 5 None) =
    (GetIters.mkArgs 0 0 (Some 100%Z) 5 None, ret tt).
Proof.
  apply (X1_explicit_budgets_are_kept None (Some None) 0%Z 100%Z
           (GetIters.mkArgs 0 0 (Some 100%Z) 5 None) eq_refl).
  right. simpl. lia.
Defined.

(** X2. The derived [train_iters] asks for strictly more samples than
    [max_epochs] passes over the truncated dataset hold, and for at most
    one global batch more; the truncation drops less than one step batch;
    and the value is at least 1. *)
Theorem X2_derived_train_iters_outlasts_the_epochs :
  forall (n : N) (val : option GetIters.dataset) (dp me : Z) (a : GetIters.Args),
    GetIters.train_iters a = None ->
    GetIters.max_epochs a = Some me ->
    (0 < GetIters.micro_batch_size a * dp)%Z ->
    (0 < GetIters.global_batch_size a)%Z ->
    (0 <= me)%Z ->
    let step_batch_size := (GetIters.micro_batch_size a * dp)%Z in
    let dataset_sample := (Z.of_N n / step_batch_size * step_batch_size)%Z in
    exists t,
      GetIters.train_iters (fst (GetIters.initialize_megatron (Some n) val dp a)) = Some t /\
      (Z.of_N n - step_batch_size < dataset_sample <= Z.of_N n)%Z /\
      (dataset_sample * me < t * GetIters.global_batch_size a
         <= dataset_sample * me + GetIters.global_batch_size a)%Z /\
      (1 <= t)%Z.
Proof.
  intros n val dp me a Ht Hm Hs Hg Hme sbs ds.
  exists (ds * me / GetIters.global_batch_size a + 1)%Z.
  split.
  - unfold GetIters.initialize_megatron. fold sbs.
    rewrite (derive_train_iters_value n sbs me a Ht Hm) by lia. simpl.
    destruct (derive_eval_iters_frame val sbs
                (GetIters.set_train_iters
                   (Z.of_N n / sbs * sbs * me / GetIters.global_batch_size a + 1) a))
      as [H _].
    simpl in H. exact H.
  - pose proof (div_bracket (Z.of_N n) sbs Hs) as Hb1.
    pose proof (div_bracket (ds * me) (GetIters.global_batch_size a) Hg) as Hb2.
    assert (0 <= ds)%Z.
    { subst ds. apply Z.mul_nonneg_nonneg; [|lia]. apply Z.div_pos; lia. }
    assert (0 <= ds * me / GetIters.global_batch_size a)%Z
      by (apply Z.div_pos; [apply Z.mul_nonneg_nonneg|]; lia).
    subst ds. split; [lia|]. split; [lia | lia].
Qed.

Lemma X2_derived_train_iters_outlasts_the_epochs_witness :
  exists t,
    GetIters.train_iters
      (fst (GetIters.initialize_megatron (Some 10%N) None 3
              (GetIters.mkArgs 1 4 None (-1) (Some 2%Z)))) = Some t /\
    (9 * 2 < t * 4 <= 9 * 2 + 4)%Z.
Proof.
  destruct (X2_derived_train_iters_outlasts_the_epochs 10%N None 3%Z 2%Z
              (GetIters.mkArgs 1 4 None (-1) (Some 2%Z)) eq_refl eq_refl)
    as (t & Ht & _ & Hb & _).
  - simpl. lia.
  - simpl. lia.
  - lia.
  - exists t. split; [exact Ht | exact Hb].
Defined.

Section GetItersEval.
Import GetIters.
Local Open Scope Z_scope.

(** The value stored by a derivation of [eval_iters] that returned. *)
Lemma initialize_eval_value (train : dataset) (n : N) (dp : Z) (a a' : Args) :
  eval_iters a < 0 ->
  initialize_megatron train (Some (Some n)) dp a = (a', ret tt) ->
  eval_iters a' =
    Z.max (Z.of_N n / (micro_batch_size a * dp) * (micro_batch_size a * dp)
           / global_batch_size a) 1.
Proof.
  intros He. unfold initialize_megatron.
  set (sbs := micro_batch_size a * dp).
  destruct (derive_train_iters train sbs a) as [a1 [e|[]]] eqn:Hd; [discriminate|].
  intros Hv.
  destruct (derive_train_iters_frame train sbs a) as (He1 & _ & Hg1).
  rewrite Hd in He1, Hg1. simpl in He1, Hg1.
  apply derive_eval_iters_inv in Hv; [|lia].
  rewrite Hv, Hg1. reflexivity.
Qed.
End GetItersEval.

(** X3. A derived [eval_iters] never asks for more samples than the
    validation dataset holds, unless the truncated dataset is smaller than
    one global batch, in which case exactly one iteration is run; when it
    fits, less than one global batch of the truncated dataset is left
    over. *)
Theorem X3_derived_eval_iters_fits_the_dataset :
  forall (train : GetIters.dataset) (n : N) (dp : Z) (a a' : GetIters.Args),
    (GetIters.eval_iters a < 0)%Z ->
    (0 < GetIters.micro_batch_size a * dp)%Z ->
    (0 < GetIters.global_batch_size a)%Z ->
    GetIters.initialize_megatron train (Some (Some n)) dp a = (a', ret tt) ->
    let step_batch_size := (GetIters.micro_batch_size a * dp)%Z in
    let dataset_sample := (Z.of_N n / step_batch_size * step_batch_size)%Z in
    let requested := (GetIters.eval_iters a' * GetIters.global_batch_size a)%Z in
    ((GetIters.global_batch_size a <= dataset_sample)%Z ->
       (requested <= dataset_sample <= Z.of_N n)%Z /\
       (dataset_sample < requested + GetIters.global_batch_size a)%Z) /\
    ((dataset_sample < GetIters.global_batch_size a)%Z ->
       GetIters.eval_iters a' = 1%Z).
Proof.
  intros train n dp a a' He Hs Hg Hrun sbs ds requested.
  pose proof (initialize_eval_value train n dp a a' He Hrun) as Hv.
  fold sbs in Hv. fold ds in Hv.
  pose proof (div_bracket (Z.of_N n) sbs Hs) as Hb1.
  pose proof (div_bracket ds (GetIters.global_batch_size a) Hg) as Hb2.
  assert (Hds : (0 <= ds)%Z).
  { subst ds. apply Z.mul_nonneg_nonneg; [|lia]. apply Z.div_pos; lia. }
  split.
  - intros Hfit.
    assert (1 <= ds / GetIters.global_batch_size a)%Z.
    { apply Z.div_le_lower_bound; lia. }
    subst requested. rewrite Hv, Z.max_l by lia. subst ds. lia.
  - intros Hsmall. rewrite Hv, Z.div_small by lia. reflexivity.
Qed.

Lemma X3_derived_eval_iters_fits_the_dataset_witness :
  GetIters.initialize_megatron (Some 10%N) (Some (Some 11%N)) 3
    (GetIters.mkArgs 1 4 None (-1) (Some 2%Z)) =
    (GetIters.mkArgs 1 4 (Some 5%Z) 2 (Some 2%Z), ret tt) /\
  (2 * 4 <= 9 <= 11)%Z.
Proof.
  split; [reflexivity|].
  assert (Hneg : (GetIters.eval_iters (GetIters.mkArgs 1 4 None (-1) (Some 2%Z)) < 0)%Z)
    by (simpl; lia).
  assert (Hs : (0 < GetIters.micro_batch_size (GetIters.mkArgs 1 4 None (-1) (Some 2%Z)) * 3)%Z)
    by (simpl; lia).
  assert (Hg : (0 < GetIters.global_batch_size (GetIters.mkArgs 1 4 None (-1) (Some 2%Z)))%Z)
    by (simpl; lia).
  destruct (X3_derived_eval_iters_fits_the_dataset (Some 10%N) 11%N 3%Z
              (GetIters.mkArgs 1 4 None (-1) (Some 2%Z))
              (GetIters.mkArgs 1 4 (Some 5%Z) 2 (Some 2%Z))
              Hneg Hs Hg eq_refl) as [Hfit _].
  destruct Hfit as [Hin _].
  - apply Z.leb_le. vm_compute. reflexivity.
  - exact Hin.
Defined.

(** X4. Startup is idempotent: after a run that returned, a second run on
    the resulting arguments changes nothing and returns. *)
Theorem X4_initialize_megatron_is_idempotent :
  forall (train : GetIters.dataset) (val : option GetIters.dataset) (dp : Z)
         (a a' : GetIters.Args),
    GetIters.initialize_megatron train val dp a = (a', ret tt) ->
    GetIters.initialize_megatron train val dp a' = (a', ret tt).
Proof.
  intros train val dp a a' Hrun.
  destruct (initialize_post train val dp a a' Hrun) as [[t Ht] Hv].
  apply (initialize_explicit train val dp t a' Ht).
  destruct val as [ds|]; [right; apply Hv; eauto | left; reflexivity].
Qed.

Lemma X4_initialize_megatron_is_idempotent_witness :
  GetIters.initialize_megatron (Some 10%N) (Some (Some 11%N)) 3
    (GetIters.mkArgs 1 4 (Some 5%Z) 2 (Some 2%Z)) =
    (GetIters.mkArgs 1 4 (Some 5%Z) 2 (Some 2%Z), ret tt).
Proof.
  apply (X4_initialize_megatron_is_idempotent (Some 10%N) (Some (Some 11%N)) 3%Z
           (GetIters.mkArgs 1 4 None (-1) (Some 2%Z))).
  reflexivity.
Defined.

(** X5. After a startup that returned, [train_iters] is set and, when a
    validation dataset is given, [eval_iters] is non-negative: the
    training loop never sees an unset or negative budget. *)
Theorem X5_budgets_are_set_after_startup :
  forall (train : GetIters.dataset) (val : option GetIters.dataset) (dp : Z)
         (a a' : GetIters.Args),
    GetIters.initialize_megatron train val dp a = (a', ret tt) ->
    is_Some (GetIters.train_iters a') /\
    (is_Some val -> (0 <= GetIters.eval_iters a')%Z).
Proof. exact initialize_post. Qed.

Lemma X5_budgets_are_set_after_startup_witness :
  is_Some (GetIters.train_iters (GetIters.mkArgs 1 4 (Some 5%Z) 2 (Some 2%Z))) /\
  (is_Some (Some (Some 11%N)) ->
   (0 <= GetIters.eval_iters (GetIters.mkArgs 1 4 (Some 5%Z) 2 (Some 2%Z)))%Z).
Proof.
  apply (X5_budgets_are_set_after_startup (Some 10%N) (Some (Some 11%N)) 3%Z
           (GetIters.mkArgs 1 4 None (-1) (Some 2%Z))).
  reflexivity.
Defined.

(** X6. Startup only ever writes the two budgets: the batch sizes and
    [max_epochs] are the same afterwards on every path, and when startup
    raises, [eval_iters] is as it was. *)
Theorem X6_startup_writes_only_the_budgets :
  forall (train : GetIters.dataset) (val : option GetIters.dataset) (dp : Z)
         (a : GetIters.Args),
    let out := GetIters.initialize_megatron train val dp a in
    GetIters.micro_batch_size (fst out) = GetIters.micro_batch_size a /\
    GetIters.global_batch_size (fst out) = GetIters.global_batch_size a /\
    GetIters.max_epochs (fst out) = GetIters.max_epochs a /\
    (forall e, snd out = raise e ->
       GetIters.eval_iters (fst out) = GetIters.eval_iters a).
Proof. exact initialize_frame. Qed.

Lemma X6_startup_writes_only_the_budgets_witness :
  GetIters.eval_iters
    (fst (GetIters.initialize_megatron (Some 10%N) (Some None) 3
            (GetIters.mkArgs 1 4 None (-1) (Some 2%Z)))) = (-1)%Z.
Proof.
  apply (proj2 (proj2 (proj2 (X6_startup_writes_only_the_budgets
           (Some 10%N) (Some None) 3%Z (GetIters.mkArgs 1 4 None (-1) (Some 2%Z)))))
           (ValueError GetIters.val_msg)).
  reflexivity.
Defined.

(** ** The cyclic iterator, whatever the flag does *)

Section CyclicMore.
Import Cyclic CyclicTrace.
Local Open Scope Z_scope.

Context {A : Type}.
Variable max_epochs : option Z.
Variable source : list A.

Local Abbreviation step := (step max_epochs source).
Local Abbreviation next := (next max_epochs source).
Local Abbreviation consume := (consume max_epochs source).
Local Abbreviation delivered := (delivered source).

Lemma passes_snoc (n : nat) : passes source n ++ source = passes source (S n).
Proof.
  induction n as [|n IH]; cbn [passes].
  - rewrite app_nil_r. reflexivity.
  - rewrite <- app_assoc, IH. reflexivity.
Qed.

(** Every move keeps the account of what was delivered. *)
Lemma step_delivered (b : bool) (s : gen_state A) (items : list A) :
  delivered s items ->
  match step b s with
  | Tau s' => delivered s' items
  | Yield x s' => delivered s' (items ++ [x])
  | Stop s' => delivered s' items /\ exists i, s' = Done i
  end.
Proof.
  destruct s as [i | i [|x rest] | i]; cbn [Cyclic.step CyclicTrace.delivered].
  - intros [Hi ->]. destruct (b && epochs_completed max_epochs i).
    + split; [split; [lia | reflexivity] | eauto].
    + split; [lia|]. exists []. split; [reflexivity | rewrite app_nil_r; reflexivity].
  - intros (Hi & pre & Hsrc & ->). rewrite app_nil_r in Hsrc. subst pre.
    split; [lia|]. rewrite passes_snoc. f_equal. lia.
  - intros (Hi & pre & Hsrc & ->). split; [lia|].
    exists (pre ++ [x]). rewrite <- !app_assoc. split; [exact Hsrc | reflexivity].
  - intros [Hi ->]. split; [split; [lia | reflexivity] | eauto].
Qed.

Lemma next_delivered (fuel : nat) (b : bool) (s s' : gen_state A)
    (items : list A) (o : option A) :
  delivered s items -> next fuel b s = Some (o, s') ->
  match o with
  | Some x => delivered s' (items ++ [x])
  | None => delivered s' items /\ exists i, s' = Done i
  end.
Proof.
  revert s. induction fuel as [|fuel IH]; intros s Hd; [discriminate|].
  cbn [Cyclic.next]. pose proof (step_delivered b s items Hd) as Hs.
  destruct (step b s) as [s1 | x s1 | s1].
  - apply IH. exact Hs.
  - intros [= <- <-]. exact Hs.
  - intros [= <- <-]. exact Hs.
Qed.

Lemma consume_delivered (calls fuel : nat) (flags : nat -> bool) (from : nat)
    (s s' : gen_state A) (before items : list A) (fin : bool) :
  delivered s before ->
  consume calls fuel flags from s = Some (items, fin, s') ->
  delivered s' (before ++ items) /\ (fin = true -> exists i, s' = Done i).
Proof.
  revert from s before items. induction calls as [|calls IH];
    intros from s before items Hd.
  - intros [= <- <- <-]. rewrite app_nil_r. split; [exact Hd | discriminate].
  - cbn [Cyclic.consume].
    destruct (next fuel (flags from) s) as [[[x|] s1]|] eqn:Hn; [| |discriminate].
    + pose proof (next_delivered _ _ _ _ _ _ Hd Hn) as Hd1. cbn in Hd1.
      destruct (consume calls fuel flags (S from) s1) as [[[xs fin'] s2]|] eqn:Hc;
        [|discriminate].
      intros [= <- <- <-].
      destruct (IH _ _ _ _ Hd1 Hc) as [H1 H2].
      rewrite <- app_assoc in H1. split; [exact H1 | exact H2].
    + pose proof (next_delivered _ _ _ _ _ _ Hd Hn) as [Hd1 Hdone]. 
      intros [= <- <- <-]. rewrite app_nil_r. split; [exact Hd1 | intros _; exact Hdone].
Qed.

(** When the stop test can never succeed. *)
Lemma epochs_never_completed (b : bool) (i : Z) :
  b = false \/ truthy max_epochs = false -> b && epochs_completed max_epochs i = false.
Proof.
  intros [-> | Ht]; [reflexivity|].
  unfold epochs_completed. destruct max_epochs as [m|]; [|apply andb_false_r].
  simpl in Ht. rewrite Ht. apply andb_false_r.
Qed.

Lemma step_ungated_running (b : bool) (s : gen_state A) :
  b = false \/ truthy max_epochs = false -> running s ->
  match step b s with
  | Tau s' | Yield _ s' => running s'
  | Stop _ => False
  end.
Proof.
  intros Hb Hrun. destruct s as [i | i [|x rest] | i]; cbn [Cyclic.step];
    try (intros j; discriminate).
  - rewrite (epochs_never_completed b i Hb). intros j; discriminate.
  - exact (Hrun i eq_refl).
Qed.

Lemma next_ungated_never_stops (fuel : nat) (b : bool) (s s' : gen_state A) :
  b = false \/ truthy max_epochs = false -> running s ->
  next fuel b s <> Some (None, s').
Proof.
  intros Hb. revert s. induction fuel as [|fuel IH]; intros s Hrun; [discriminate|].
  cbn [Cyclic.next]. pose proof (step_ungated_running b s Hb Hrun) as Hs.
  destruct (step b s) as [s1 | x s1 | s1]; [ | discriminate | contradiction].
  apply IH, Hs.
Qed.

Lemma next_ungated_yields (fuel : nat) (b : bool) (s : gen_state A) :
  b = false \/ truthy max_epochs = false ->
  source <> [] -> running s -> (3 <= fuel)%nat ->
  exists x s', next fuel b s = Some (Some x, s') /\ running s'.
Proof.
  intros Hb Hne Hrun Hfuel.
  assert (H3 : exists x s', next 3 b s = Some (Some x, s') /\ running s').
  { destruct s as [i | i [|x rest] | i]; cbn [Cyclic.next Cyclic.step].
    - rewrite (epochs_never_completed b i Hb).
      destruct source as [|x0 r0]; [contradiction|].
      exists x0, (InFor i r0). split; [reflexivity | intros j; discriminate].
    - rewrite (epochs_never_completed b (i + 1) Hb).
      destruct source as [|x0 r0]; [contradiction|].
      exists x0, (InFor (i + 1) r0). split; [reflexivity | intros j; discriminate].
    - exists x, (InFor i rest). split; [reflexivity | intros j; discriminate].
    - destruct (Hrun i eq_refl). }
  destruct H3 as (x & s' & H & Hs'). exists x, s'. split; [|exact Hs'].
  exact (next_mono max_epochs source 3 fuel b s _ H Hfuel).
Qed.

(** Over an empty source, a body whose stop test cannot succeed spins. *)
Lemma next_empty_spins (fuel : nat) (b : bool) :
  source = [] -> b = false \/ truthy max_epochs = false ->
  forall i, next fuel b (Head i) = None /\ next fuel b (InFor i []) = None.
Proof.
  intros Hsrc Hb. induction fuel as [|fuel IH]; intros i; [split; reflexivity|].
  cbn [Cyclic.next Cyclic.step]. rewrite (epochs_never_completed b i Hb).
  split.
  - replace (InFor i source) with (InFor i ([] : list A)) by (rewrite Hsrc; reflexivity).
    apply IH.
  - apply IH.
Qed.
End CyclicMore.

(** X7. Whatever [is_training] is from call to call, the items a consumer
    has received from a new cyclic iterator are whole passes over the
    source followed by a prefix of the source, the number of whole passes
    being the epoch index; and when the iterator has stopped, they are
    exactly [i] whole passes: the stop never cuts a pass short, and no item
    is skipped, repeated or reordered. *)
Theorem X7_items_are_whole_passes_then_a_prefix :
  forall (A : Type) (max_epochs : option Z) (source : list A)
         (calls fuel : nat) (flags : nat -> bool)
         (items : list A) (fin : bool) (s : Cyclic.gen_state A),
    Cyclic.consume max_epochs source calls fuel flags 0 Cyclic.new_cyclic_iter =
      Some (items, fin, s) ->
    (0 <= Cyclic.epoch s)%Z /\
    (exists pre suf,
        source = pre ++ suf /\
        items = Cyclic.passes source (Z.to_nat (Cyclic.epoch s)) ++ pre) /\
    (fin = true ->
       s = Cyclic.Done (Cyclic.epoch s) /\
       items = Cyclic.passes source (Z.to_nat (Cyclic.epoch s))).
Proof.
  intros A max_epochs source calls fuel flags items fin s Hrun.
  assert (H0 : CyclicTrace.delivered source (Cyclic.new_cyclic_iter (A := A)) []).
  { split; [reflexivity | reflexivity]. }
  destruct (consume_delivered max_epochs source calls fuel flags 0 _ s [] items fin H0 Hrun)
    as [Hd Hfin].
  cbn [app] in Hd.
  destruct s as [i | i rest | i]; cbn [CyclicTrace.delivered Cyclic.epoch] in *.
  - destruct Hd as [Hi ->]. split; [exact Hi|]. split.
    + exists [], source. rewrite app_nil_r. split; reflexivity.
    + intros Hf. destruct (Hfin Hf) as [j Hj]. discriminate Hj.
  - destruct Hd as (Hi & pre & Hsrc & ->). split; [exact Hi|]. split.
    + exists pre, rest. split; [exact Hsrc | reflexivity].
    + intros Hf. destruct (Hfin Hf) as [j Hj]. discriminate Hj.
  - destruct Hd as [Hi ->]. split; [exact Hi|]. split.
    + exists [], source. rewrite app_nil_r. split; reflexivity.
    + intros _. split; reflexivity.
Qed.

Lemma X7_items_are_whole_passes_then_a_prefix_witness :
  exists pre suf,
    [1%nat; 2%nat] = pre ++ suf /\
    [1%nat; 2%nat; 1%nat] = Cyclic.passes [1%nat; 2%nat] 1 ++ pre.
Proof.
  exact (proj1 (proj2 (X7_items_are_whole_passes_then_a_prefix nat (Some 3%Z)
           [1%nat; 2%nat] 3 3 (fun k => Nat.even k)
           [1%nat; 2%nat; 1%nat] false (Cyclic.InFor 1%Z [2%nat]) eq_refl))).
Defined.

(** X8. With [max_epochs] unset or zero the iterator never stops on its
    own, whether [is_training] is true or false, and over a non-empty
    source every [next] yields an item within three moves of the body. *)
Theorem X8_unbounded_iterator_never_stops :
  forall (A : Type) (max_epochs : option Z) (source : list A),
    truthy max_epochs = false ->
    (forall (fuel : nat) (b : bool) (s s' : Cyclic.gen_state A),
        CyclicTrace.running s ->
        Cyclic.next max_epochs source fuel b s <> Some (None, s')) /\
    (forall (fuel : nat) (b : bool) (s : Cyclic.gen_state A),
        source <> [] -> CyclicTrace.running s -> (3 <= fuel)%nat ->
        exists x s',
          Cyclic.next max_epochs source fuel b s = Some (Some x, s') /\
          CyclicTrace.running s').
Proof.
  intros A max_epochs source Ht. split.
  - intros fuel b s s'. apply next_ungated_never_stops. right. exact Ht.
  - intros fuel b s. apply next_ungated_yields. right. exact Ht.
Qed.

Lemma X8_unbounded_iterator_never_stops_witness :
  exists x s',
    Cyclic.next (Some 0%Z) [7%nat] 3 true (Cyclic.InFor 41%Z []) = Some (Some x, s') /\
    CyclicTrace.running s'.
Proof.
  apply (proj2 (X8_unbounded_iterator_never_stops nat (Some 0%Z) [7%nat] eq_refl)).
  - discriminate.
  - intros i. discriminate.
  - lia.
Defined.

(** X9. A negative [max_epochs] is truthy and already reached at [i = 0]:
    if [is_training] is true at the first [next], the iterator stops at
    once and hands out nothing, whatever the source holds. *)
Theorem X9_negative_max_epochs_yields_nothing :
  forall (A : Type) (m : Z) (source : list A) (calls fuel : nat)
         (flags : nat -> bool),
    (m < 0)%Z -> flags 0%nat = true ->
    Cyclic.consume (Some m) source (S calls) (S fuel) flags 0 Cyclic.new_cyclic_iter =
      Some ([], true, Cyclic.Done 0%Z).
Proof.
  intros A m source calls fuel flags Hm Hf.
  cbn [Cyclic.consume Cyclic.new_cyclic_iter Cyclic.next Cyclic.step].
  rewrite Hf. unfold Cyclic.epochs_completed.
  destruct (Z.eqb_spec m 0); [lia|]. destruct (Z.leb_spec m 0); [reflexivity | lia].
Qed.

Lemma X9_negative_max_epochs_yields_nothing_witness :
  Cyclic.consume (Some (-1)%Z) [1%nat; 2%nat] 5 4 (fun _ => true) 0 Cyclic.new_cyclic_iter =
    Some ([], true, Cyclic.Done 0%Z).
Proof.
  apply (X9_negative_max_epochs_yields_nothing nat (-1)%Z [1%nat; 2%nat] 4 3
           (fun _ => true)).
  - lia.
  - reflexivity.
Defined.

(** X10. Over an empty source [next] never returns when the stop test
    cannot succeed, that is when [is_training] is false or [max_epochs]
    is unset or zero: the body goes round [while True] without reaching a
    [yield] or the [break], however many moves it is given. *)
Theorem X10_empty_source_spins_forever :
  forall (A : Type) (max_epochs : option Z) (b : bool) (fuel : nat),
    b = false \/ truthy max_epochs = false ->
    Cyclic.next max_epochs ([] : list A) fuel b Cyclic.new_cyclic_iter = None.
Proof.
  intros A max_epochs b fuel Hb.
  exact (proj1 (next_empty_spins max_epochs [] fuel b eq_refl Hb 0%Z)).
Qed.

Lemma X10_empty_source_spins_forever_witness :
  Cyclic.next (Some 2%Z) ([] : list nat) 1000 false Cyclic.new_cyclic_iter = None.
Proof.
  apply (X10_empty_source_spins_forever nat (Some 2%Z) false 1000).
  left. reflexivity.
Defined.

(** ** The step interceptor and the forward step *)

(** X11. [train_step] never lets [StopIteration] out, and whatever it does
    raise is what the wrapped step raised inside the training context. *)
Theorem X11_train_step_never_raises_StopIteration :
  forall (Loss Payload Rest : Type)
         (origin : Interceptor.Args Rest ->
                   Interceptor.Args Rest * result (Interceptor.step_result Loss Payload))
         (a : Interceptor.Args Rest),
    snd (Interceptor.train_step origin a) <> raise StopIteration /\
    (forall e, snd (Interceptor.train_step origin a) = raise e ->
       snd (origin (Interceptor.set_is_training true a)) = raise e).
Proof.
  intros Loss Payload Rest origin a. rewrite train_step_unfold. cbn [snd].
  destruct (snd (origin (Interceptor.set_is_training true a))) as [e|r].
  - destruct e; split; try discriminate; auto.
  - split; [discriminate | auto].
Qed.

Section ForwardStepFacts.
Import ForwardStep.
Local Open Scope Z_scope.

Lemma is_falsy_spec (data : option batch) :
  is_falsy data = true <-> data = None \/ data = Some ∅.
Proof.
  destruct data as [d|]; cbn [is_falsy].
  - rewrite bool_decide_eq_true. split.
    + intros ->. right. reflexivity.
    + intros [H | [= ->]]; [discriminate | reflexivity].
  - split; auto.
Qed.

Lemma loss_mask_lookup (labels : list Z) (k : nat) :
  loss_mask_of labels !! k =
    (fun l => if decide (l = -100) then 0 else 1) <$> labels !! k.
Proof. unfold loss_mask_of. apply list_lookup_fmap. Qed.

(** The mask adds up to the number of labels that count. *)
Lemma loss_mask_sum (labels : list Z) :
  foldr Z.add 0 (loss_mask_of labels) =
    Z.of_nat (length (filter (fun l => l <> -100) labels)).
Proof.
  induction labels as [|l labels IH]; [reflexivity|].
  rewrite filter_cons.
  change (loss_mask_of (l :: labels))
    with ((if decide (l = -100) then 0 else 1) :: loss_mask_of labels).
  cbn [foldr]. rewrite IH.
  destruct (decide (l = -100)) as [->|Hl].
  - rewrite decide_False by (intros H; apply H; reflexivity). lia.
  - rewrite decide_True by assumption. cbn [length]. lia.
Qed.
End ForwardStepFacts.

(** X12. [forward_step] raises [StopIteration] when [get_batch] returns
    [None] or an empty dictionary: the network is not called (the outcome
    is the same for every network) and the timer ['batch-generator'] is
    left running. On any other batch the timer is stopped and the outcome
    is the network's: its exception, or its output together with the loss
    mask of the batch's labels ([None] when the batch has no labels). *)
Theorem X12_forward_step_on_an_empty_batch :
  forall (Out : Type) (model : ForwardStep.batch -> result Out)
         (data : option ForwardStep.batch) (running : bool),
    (data = None \/ data = Some ∅ ->
     ForwardStep.forward_step model data running = (true, raise StopIteration)) /\
    (forall d, data = Some d -> d <> ∅ ->
     ForwardStep.forward_step model data running =
       (false,
        match model d with
        | inl e => raise e
        | inr out => ret (out, ForwardStep.loss_mask_of <$> d !! "labels"%string)
        end)).
Proof.
  intros Out model data running. split.
  - intros H. apply is_falsy_spec in H. unfold ForwardStep.forward_step.
    rewrite H. reflexivity.
  - intros d -> Hd. unfold ForwardStep.forward_step. cbn [ForwardStep.is_falsy].
    rewrite bool_decide_eq_false_2 by exact Hd.
    change (default ∅ (Some d)) with d.
    destruct (model d) as [e|out]; [reflexivity|].
    destruct (d !! "labels"%string); reflexivity.
Qed.

Lemma X12_forward_step_on_an_empty_batch_witness :
  ForwardStep.forward_step (Out := nat) (fun _ => raise (EngineFailure 1))
    (Some ∅) false = (true, raise StopIteration) /\
  ForwardStep.forward_step (Out := nat) (fun _ => ret 5%nat)
    (Some {[ "labels"%string := [3; -100; 7]%Z ]}) true =
    (false, ret (5%nat, Some [1; 0; 1]%Z)).
Proof.
  split.
  - apply (proj1 (X12_forward_step_on_an_empty_batch nat
                    (fun _ => raise (EngineFailure 1)) (Some ∅) false)).
    right. reflexivity.
  - rewrite (proj2 (X12_forward_step_on_an_empty_batch nat
                    (fun _ => ret 5%nat)
                    (Some {[ "labels"%string := [3; -100; 7]%Z ]}) true)
               {[ "labels"%string := [3; -100; 7]%Z ]} eq_refl).
    + reflexivity.
    + intros H. apply (f_equal (fun m => m !! "labels"%string)) in H.
      vm_compute in H. discriminate H.
Defined.

(** X13. The loss mask has the shape of the labels, holds only 0 and 1, is
    0 exactly at the positions labelled [-100], and adds up to the number
    of labels that are not [-100]. *)
Theorem X13_loss_mask_marks_the_ignored_labels :
  forall (labels : list Z),
    length (ForwardStep.loss_mask_of labels) = length labels /\
    (forall k l, labels !! k = Some l ->
       ForwardStep.loss_mask_of labels !! k = Some (if decide (l = -100)%Z then 0 else 1)%Z) /\
    (forall k, ForwardStep.loss_mask_of labels !! k = Some 0%Z <->
               labels !! k = Some (-100)%Z) /\
    foldr Z.add 0%Z (ForwardStep.loss_mask_of labels) =
      Z.of_nat (length (filter (fun l => l <> (-100)%Z) labels)).
Proof.
  intros labels. split; [apply length_map|]. split; [|split].
  - intros k l Hk. rewrite loss_mask_lookup, Hk. reflexivity.
  - intros k. rewrite loss_mask_lookup. destruct (labels !! k) as [l|]; cbn.
    + destruct (decide (l = -100)%Z) as [->|Hl]; split; auto; try discriminate.
      intros [= H]. contradiction.
    + split; discriminate.
  - apply loss_mask_sum.
Qed.

Lemma X13_loss_mask_marks_the_ignored_labels_witness :
  ForwardStep.loss_mask_of [3; -100; 7]%Z !! 1%nat = Some 0%Z.
Proof.
  apply (proj1 (proj2 (proj2 (X13_loss_mask_marks_the_ignored_labels [3; -100; 7]%Z)))
           1%nat).
  reflexivity.
Defined.

Lemma X11_train_step_never_raises_StopIteration_witness :
  snd ((fun a : Interceptor.Args nat =>
          (a, raise (EngineFailure 3) : result (Interceptor.step_result Z unit)))
       (Interceptor.set_is_training true (Interceptor.mkArgs None 0%nat))) =
    raise (EngineFailure 3).
Proof.
  apply (proj2 (X11_train_step_never_raises_StopIteration Z unit nat
           (fun a => (a, raise (EngineFailure 3)))
           (Interceptor.mkArgs None 0%nat))).
  reflexivity.
Defined.

(** ** More about [evaluate] *)

Section EvaluateMore.
Import Evaluate.
Local Open Scope Z_scope.

Context {num Aux : Type}.
Variable zero one : num.
Variable add div : num -> num -> num.
Variable args : Args.
Variable env : Env num Aux.
Variable all_reduce : ReduceOp -> Z -> Z -> Z.

Local Abbreviation evaluate := (evaluate zero one add div args env all_reduce).

(** Every iteration run adds one global batch to
    [consumed_valid_samples]: at both returns, and at the raises of lines
    129 and 191, which happen outside the iterations. *)
Lemma evaluate_consumed (w : world) (f : frame num) r :
  evaluate w = (f, r) ->
  consumed_valid_samples (outer f) =
    consumed_valid_samples w + iteration f * global_batch_size args.
Proof.
  unfold Evaluate.evaluate.
  destruct (floordiv _ _) as [e|nmb].
  { intros [= <- <-]. cbn. lia. }
  destruct (eval_loop _ _ _ _ _ _ _ _ _ _) as [f' ab] eqn:Hloop.
  apply eval_loop_inv in Hloop as (_ & _ & Hshape).
  assert (Hf' : consumed_valid_samples (outer f') =
                consumed_valid_samples w + iteration f' * global_batch_size args).
  { destruct ab.
    - destruct Hshape as (_ & m & _ & ->). cbn [outer iteration with_rerun consumed_valid_samples].
      destruct (bodies_outer zero one add args env nmb (S m)
                  (mkFrame (with_rerun DISABLED
                              (with_model (map (fun _ => EvalMode) (model w)) w)) ∅ 0))
        as (_ & _ & ->).
      rewrite bodies_iteration. cbn. lia.
    - destruct Hshape as (m & _ & -> & _).
      destruct (bodies_outer zero one add args env nmb m
                  (mkFrame (with_rerun DISABLED
                              (with_model (map (fun _ => EvalMode) (model w)) w)) ∅ 0))
        as (_ & _ & ->).
      rewrite bodies_iteration. cbn. lia. }
  destruct ab.
  - intros [= <- <-]. exact Hf'.
  - destruct (collect _ _ _) as [e|c]; intros [= <- <-]; [exact Hf'|].
    cbn [outer iteration with_rerun with_model consumed_valid_samples]. exact Hf'.
Qed.

(** A normal completion has run [max(eval_iters, 0)] iterations. *)
Lemma evaluate_normal_iterations (w : world) (f : frame num) metrics aux :
  evaluate w = (f, ret (Some metrics, aux, false)) ->
  iteration f = Z.max 0 (eval_iters args).
Proof.
  unfold Evaluate.evaluate.
  destruct (floordiv _ _) as [e|nmb]; [discriminate|].
  destruct (eval_loop _ _ _ _ _ _ _ _ _ _) as [f' ab] eqn:Hloop.
  destruct ab; [discriminate|].
  apply eval_loop_normal_exit in Hloop as [-> _].
  destruct (collect _ _ _) as [e|c]; [discriminate|].
  intros [= <- _ _]. cbn [iteration]. rewrite bodies_iteration. cbn [iteration]. lia.
Qed.

(** The early exit needs the check to be enabled. *)
Lemma evaluate_aborted_enabled (w : world) (f : frame num) metrics aux :
  evaluate w = (f, ret (metrics, aux, true)) ->
  truthy (exit_duration_in_mins args) = true.
Proof.
  unfold Evaluate.evaluate.
  destruct (floordiv _ _) as [e|nmb]; [discriminate|].
  destruct (eval_loop _ _ _ _ _ _ _ _ _ _) as [f' ab] eqn:Hloop.
  destruct ab.
  - intros _. apply eval_loop_inv in Hloop as (_ & _ & Hr & _).
    unfold time_limit_reached in Hr.
    destruct (truthy (exit_duration_in_mins args)); [reflexivity | discriminate].
  - destruct (collect _ _ _); discriminate.
Qed.

(** Which collector supplied the auxiliary data of a normal completion. *)
Lemma evaluate_collected (w : world) (f : frame num) metrics aux :
  evaluate w = (f, ret (Some metrics, aux, false)) ->
  aux =
    match non_loss_data_func env with
    | Some g => Some (g (map (fun _ => EvalMode) (model w)))
    | None =>
        if process_non_loss_data_func env && is_last_rank env
        then Some (collect_non_loss_data env)
        else None
    end.
Proof.
  unfold Evaluate.evaluate.
  destruct (floordiv _ _) as [e|nmb]; [discriminate|].
  destruct (eval_loop _ _ _ _ _ _ _ _ _ _) as [f' ab] eqn:Hloop.
  destruct ab; [discriminate|].
  apply eval_loop_inv in Hloop as (Hm & _ & _).
  cbn [outer model with_rerun with_model] in Hm.
  unfold collect. rewrite Hm.
  destruct (non_loss_data_func env) as [g|].
  - intros [= _ _ <-]. reflexivity.
  - destruct (process_non_loss_data_func env && is_last_rank env).
    + case_decide; [|discriminate]. intros [= _ _ <-]. reflexivity.
    + intros [= _ _ <-]. reflexivity.
Qed.

(** Both ways of raising leave the modules in evaluation mode and the
    rerun state machine disabled. *)
Lemma evaluate_raise_state (w : world) (f : frame num) (e : py_exn) :
  evaluate w = (f, raise e) ->
  model (outer f) = map (fun _ => EvalMode) (model w) /\
  rerun (outer f) = DISABLED.
Proof.
  unfold Evaluate.evaluate.
  destruct (floordiv _ _) as [e'|nmb].
  { intros [= <- _]. split; reflexivity. }
  destruct (eval_loop _ _ _ _ _ _ _ _ _ _) as [f' ab] eqn:Hloop.
  destruct ab; [discriminate|].
  apply eval_loop_inv in Hloop as (Hm & Hr & _).
  destruct (collect _ _ _) as [e'|c]; [|discriminate].
  intros [= <- _]. split; [exact Hm | exact Hr].
Qed.

Lemma evaluate_zero_division (w : world) :
  micro_batch_size args * data_parallel_size args = 0 ->
  exists f, evaluate w = (f, raise ZeroDivisionError).
Proof.
  intros H0. unfold Evaluate.evaluate, floordiv. rewrite H0.
  case_decide; [|contradiction]. eexists. reflexivity.
Qed.

Lemma evaluate_unbound_local (w : world) :
  micro_batch_size args * data_parallel_size args <> 0 ->
  eval_iters args <= 0 ->
  non_loss_data_func env = None ->
  process_non_loss_data_func env = true -> is_last_rank env = true ->
  exists f, evaluate w = (f, raise UnboundLocalError).
Proof.
  intros Hdiv Hle Hn Hp Hl. unfold Evaluate.evaluate.
  rewrite (floordiv_ok _ _ Hdiv).
  replace (Z.to_nat (eval_iters args)) with 0%nat by lia.
  cbn [Evaluate.eval_loop]. unfold collect. rewrite Hn, Hp, Hl. cbn [andb].
  case_decide; [lia|]. eexists. reflexivity.
Qed.
End EvaluateMore.

Section StageMetrics.
Import Evaluate.
Local Open Scope Z_scope.

Context {num Aux : Type}.
Variable zero one : num.
Variable add div : num -> num -> num.
Variable args : Args.
Variable env : Env num Aux.
Variable all_reduce : ReduceOp -> Z -> Z -> Z.

(** Off the last pipeline stage nothing is accumulated. *)
Lemma evaluate_other_stage_metrics (w : world) (f : frame num) metrics aux :
  is_pipeline_last_stage env = false ->
  evaluate zero one add div args env all_reduce w = (f, ret (Some metrics, aux, false)) ->
  metrics = ∅.
Proof.
  intros Hlast. unfold Evaluate.evaluate.
  destruct (floordiv _ _) as [e|nmb]; [discriminate|].
  destruct (eval_loop _ _ _ _ _ _ _ _ _ _) as [f' ab] eqn:Hloop.
  destruct ab; [discriminate|].
  apply eval_loop_normal_exit in Hloop as [Hf' _].
  destruct (collect _ _ _) as [e|c]; [discriminate|].
  intros H. injection H as _ Hmetrics _. rewrite <- Hmetrics.
  rewrite Hf', bodies_total by reflexivity. rewrite Hlast.
  unfold finalize. apply fmap_empty.
Qed.

(** A key has a metric exactly when some loss dictionary reported it. *)
Lemma metric_spec_none (key : string) (dicts : list (gmap string (loss_val num))) :
  metric_spec zero one add div key dicts = None <->
  Forall (fun d => d !! key = None) dicts.
Proof.
  unfold metric_spec.
  assert (Hrep : reported key dicts = [] <-> Forall (fun d => d !! key = None) dicts).
  { induction dicts as [|d dicts IH].
    - split; [constructor | reflexivity].
    - change (reported key (d :: dicts))
        with (match d !! key with
              | Some v => v :: reported key dicts
              | None => reported key dicts
              end).
      destruct (d !! key) as [v|] eqn:Hd.
      + split; [discriminate|]. intros H. inversion H; subst. congruence.
      + rewrite IH. split.
        * intros H. constructor; assumption.
        * intros H. inversion H; assumption. }
  rewrite <- Hrep. destruct (reported key dicts); split; try discriminate; reflexivity.
Qed.
End StageMetrics.

(** X14. Whenever [evaluate] returns, normally or through the time-limit
    exit, [args.consumed_valid_samples] has grown by one global batch for
    each iteration run, the early exit of iteration [j] included; and a
    normal completion has run exactly [max(eval_iters, 0)] iterations. *)
Theorem X14_consumed_samples_follow_the_iterations :
  forall (num Aux : Type) (zero one : num) (add div : num -> num -> num)
         (args : Evaluate.Args) (env : Evaluate.Env num Aux)
         (all_reduce : Evaluate.ReduceOp -> Z -> Z -> Z)
         (w : Evaluate.world) (f : Evaluate.frame num)
         (metrics : option (gmap string num)) (aux : option Aux) (aborted : bool),
    Evaluate.evaluate zero one add div args env all_reduce w =
      (f, ret (metrics, aux, aborted)) ->
    Evaluate.consumed_valid_samples (Evaluate.outer f) =
      (Evaluate.consumed_valid_samples w +
       Evaluate.iteration f * Evaluate.global_batch_size args)%Z /\
    (aborted = false ->
       Evaluate.iteration f = Z.max 0 (Evaluate.eval_iters args)).
Proof.
  intros num Aux zero one add div args env all_reduce w f metrics aux aborted Hrun.
  split.
  - exact (evaluate_consumed zero one add div args env all_reduce w f _ Hrun).
  - intros ->.
    assert (Hm : is_Some metrics).
    { revert Hrun. unfold Evaluate.evaluate.
      destruct (floordiv _ _) as [e|nmb]; [discriminate|].
      destruct (Evaluate.eval_loop _ _ _ _ _ _ _ _ _ _) as [f' ab].
      destruct ab; [discriminate|].
      destruct (Evaluate.collect _ _ _) as [e|c]; [discriminate|].
      intros [= _ <- _]. eauto. }
    destruct Hm as [m ->].
    exact (evaluate_normal_iterations zero one add div args env all_reduce
             w f m aux Hrun).
Qed.

Lemma X14_consumed_samples_follow_the_iterations_witness :
  let args := Evaluate.mkArgs 3 8 1 1 (Some 1%Z) in
  let env := Evaluate.mkEnv (num := Z) (Aux := unit) true true
               (fun _ _ => []) (fun it => (2 <=? it)%Z) None false tt in
  let w := Evaluate.mkWorld [Evaluate.TrainMode] Evaluate.VALIDATE_RESULTS 100 in
  let out := Evaluate.evaluate 0%Z 1%Z Z.add Z.div args env (fun _ _ c => c) w in
  Evaluate.consumed_valid_samples (Evaluate.outer (fst out)) = (100 + 2 * 8)%Z.
Proof.
  intros args env w out.
  assert (Hout : out = (fst out, ret (None, None, true))) by (vm_compute; reflexivity).
  exact (proj1 (X14_consumed_samples_follow_the_iterations Z unit 0%Z 1%Z Z.add Z.div
                  args env (fun _ _ c => c) w (fst out) None None true Hout)).
Defined.

(** X15. With [exit_duration_in_mins] unset or zero the time check is
    off: [evaluate] never returns through the early exit, whatever the
    clock and the collective say, so every value it returns carries
    metrics and [aborted = False]. *)
Theorem X15_no_budget_no_early_exit :
  forall (num Aux : Type) (zero one : num) (add div : num -> num -> num)
         (args : Evaluate.Args) (env : Evaluate.Env num Aux)
         (all_reduce : Evaluate.ReduceOp -> Z -> Z -> Z) (w : Evaluate.world) (f : Evaluate.frame num)
         (metrics : option (gmap string num)) (aux : option Aux) (aborted : bool),
    truthy (Evaluate.exit_duration_in_mins args) = false ->
    Evaluate.evaluate zero one add div args env all_reduce w =
      (f, ret (metrics, aux, aborted)) ->
    aborted = false /\ is_Some metrics.
Proof.
  intros num Aux zero one add div args env all_reduce w f metrics aux aborted Hoff Hrun.
  destruct aborted.
  - pose proof (evaluate_aborted_enabled zero one add div args env all_reduce
                  w f metrics aux Hrun) as Hon.
    rewrite Hoff in Hon. discriminate Hon.
  - split; [reflexivity|]. revert Hrun. unfold Evaluate.evaluate.
    destruct (floordiv _ _) as [e|nmb]; [discriminate|].
    destruct (Evaluate.eval_loop _ _ _ _ _ _ _ _ _ _) as [f' ab].
    destruct ab; [discriminate|].
    destruct (Evaluate.collect _ _ _) as [e|c]; [discriminate|].
    intros [= _ <- _]. eauto.
Qed.

Lemma X15_no_budget_no_early_exit_witness :
  let args := Evaluate.mkArgs 2 2 1 1 (Some 0%Z) in
  let env := Evaluate.mkEnv (num := Z) (Aux := unit) true true
               (fun _ _ => []) (fun _ => true) None false tt in
  let w := Evaluate.mkWorld [Evaluate.TrainMode] Evaluate.VALIDATE_RESULTS 0 in
  exists f metrics aux,
    Evaluate.evaluate 0%Z 1%Z Z.add Z.div args env (fun _ _ _ => 1%Z) w =
      (f, ret (metrics, aux, false)) /\ is_Some metrics.
Proof.
  intros args env w.
  exists (fst (Evaluate.evaluate 0%Z 1%Z Z.add Z.div args env (fun _ _ _ => 1%Z) w)),
         (Some ∅), None.
  assert (Hrun : Evaluate.evaluate 0%Z 1%Z Z.add Z.div args env (fun _ _ _ => 1%Z) w =
                 (fst (Evaluate.evaluate 0%Z 1%Z Z.add Z.div args env (fun _ _ _ => 1%Z) w),
                  ret (Some ∅, None, false))) by (vm_compute; reflexivity).
  split; [exact Hrun|].
  exact (proj2 (X15_no_budget_no_early_exit Z unit 0%Z 1%Z Z.add Z.div args env
                  (fun _ _ _ => 1%Z) w _ (Some ∅) None false eq_refl Hrun)).
Defined.

(** X17. After a normal completion the metrics have an entry for a key
    exactly when some loss dictionary of some iteration reported that key
    on the last pipeline stage; on any other stage the metrics are the
    empty dictionary. *)
Theorem X17_metric_keys_are_the_reported_keys :
  forall (num Aux : Type) (zero one : num) (add div : num -> num -> num)
         (args : Evaluate.Args) (env : Evaluate.Env num Aux)
         (all_reduce : Evaluate.ReduceOp -> Z -> Z -> Z) (w : Evaluate.world) (f : Evaluate.frame num)
         (metrics : gmap string num) (aux : option Aux),
    Evaluate.evaluate zero one add div args env all_reduce w =
      (f, ret (Some metrics, aux, false)) ->
    let nmb := (Evaluate.global_batch_size args /
                (Evaluate.micro_batch_size args * Evaluate.data_parallel_size args))%Z in
    let dicts := Evaluate.all_loss_dicts env nmb (Z.to_nat (Evaluate.eval_iters args)) in
    (Evaluate.is_pipeline_last_stage env = true ->
     forall key, metrics !! key = None <-> Forall (fun d => d !! key = None) dicts) /\
    (Evaluate.is_pipeline_last_stage env = false -> metrics = ∅).
Proof.
  intros num Aux zero one add div args env all_reduce w f metrics aux Hrun nmb dicts.
  split.
  - intros Hlast key.
    rewrite (evaluate_normal_metrics zero one add div args env all_reduce
               w f metrics aux Hlast Hrun).
    rewrite finalize_accumulate_spec. apply metric_spec_none.
  - intros Hother.
    exact (evaluate_other_stage_metrics zero one add div args env all_reduce
             w f metrics aux Hother Hrun).
Qed.

Lemma X17_metric_keys_are_the_reported_keys_witness :
  let args := Evaluate.mkArgs 2 2 1 1 None in
  let env := Evaluate.mkEnv (num := Z) (Aux := unit) false true
               (fun _ _ => [{[ "lm loss"%string := Evaluate.Scalar 3%Z ]}])
               (fun _ => false) None false tt in
  let w := Evaluate.mkWorld [Evaluate.TrainMode] Evaluate.VALIDATE_RESULTS 0 in
  exists f metrics aux,
    Evaluate.evaluate 0%Z 1%Z Z.add Z.div args env (fun _ _ c => c) w =
      (f, ret (Some metrics, aux, false)) /\ metrics = ∅.
Proof.
  intros args env w.
  destruct (evaluate_completes 0%Z 1%Z Z.add Z.div args env (fun _ _ c => c) w)
    as (f & metrics & aux & Hrun).
  - reflexivity.
  - simpl. lia.
  - intros _ H. discriminate H.
  - exists f, metrics, aux. split; [exact Hrun|].
    exact (proj2 (X17_metric_keys_are_the_reported_keys Z unit 0%Z 1%Z Z.add Z.div
                    args env (fun _ _ c => c) w f metrics aux Hrun) eq_refl).
Defined.

(** X18. On a normal completion the auxiliary data come from
    [non_loss_data_func] whenever it is given, applied to the modules
    while they are still in evaluation mode, whatever
    [process_non_loss_data_func] and the rank are; without it they come
    from one more forward pass only on the last rank and only if
    [process_non_loss_data_func] is given; otherwise they are [None]. *)
Theorem X18_direct_collector_takes_precedence :
  forall (num Aux : Type) (zero one : num) (add div : num -> num -> num)
         (args : Evaluate.Args) (env : Evaluate.Env num Aux)
         (all_reduce : Evaluate.ReduceOp -> Z -> Z -> Z) (w : Evaluate.world) (f : Evaluate.frame num)
         (metrics : gmap string num) (aux : option Aux),
    Evaluate.evaluate zero one add div args env all_reduce w =
      (f, ret (Some metrics, aux, false)) ->
    aux =
      match Evaluate.non_loss_data_func env with
      | Some g => Some (g (map (fun _ => Evaluate.EvalMode) (Evaluate.model w)))
      | None =>
          if Evaluate.process_non_loss_data_func env && Evaluate.is_last_rank env
          then Some (Evaluate.collect_non_loss_data env)
          else None
      end.
Proof.
  intros num Aux zero one add div args env all_reduce w f metrics aux.
  apply evaluate_collected.
Qed.

Lemma X18_direct_collector_takes_precedence_witness :
  let args := Evaluate.mkArgs 1 2 1 1 None in
  let env := Evaluate.mkEnv (num := Z) (Aux := nat) true true
               (fun _ _ => []) (fun _ => false)
               (Some (fold_right (fun x n => match x with
                                         | Evaluate.EvalMode => S n
                                         | Evaluate.TrainMode => n
                                         end) 0%nat))
               true 99%nat in
  let w := Evaluate.mkWorld [Evaluate.TrainMode; Evaluate.TrainMode]
             Evaluate.VALIDATE_RESULTS 0 in
  exists f metrics,
    Evaluate.evaluate 0%Z 1%Z Z.add Z.div args env (fun _ _ c => c) w =
      (f, ret (Some metrics, Some 2%nat, false)).
Proof.
  intros args env w.
  destruct (evaluate_completes 0%Z 1%Z Z.add Z.div args env (fun _ _ c => c) w)
    as (f & metrics & aux & Hrun).
  - reflexivity.
  - simpl. lia.
  - intros H. discriminate H.
  - exists f, metrics.
    rewrite (X18_direct_collector_takes_precedence Z nat 0%Z 1%Z Z.add Z.div
               args env (fun _ _ c => c) w f metrics aux Hrun) in Hrun.
    exact Hrun.
Defined.

(** X19. With [micro_batch_size * data_parallel_size = 0], [evaluate]
    raises [ZeroDivisionError] at line 129 before any iteration; since the
    modules were already switched to evaluation mode and the rerun state
    machine disabled, and nothing undoes that on an exception, they stay
    so. *)
Theorem X19_zero_step_batch_raises_and_restores_nothing :
  forall (num Aux : Type) (zero one : num) (add div : num -> num -> num)
         (args : Evaluate.Args) (env : Evaluate.Env num Aux)
         (all_reduce : Evaluate.ReduceOp -> Z -> Z -> Z) (w : Evaluate.world),
    (Evaluate.micro_batch_size args * Evaluate.data_parallel_size args = 0)%Z ->
    exists f,
      Evaluate.evaluate zero one add div args env all_reduce w =
        (f, raise ZeroDivisionError) /\
      Evaluate.iteration f = 0%Z /\
      Evaluate.consumed_valid_samples (Evaluate.outer f) =
        Evaluate.consumed_valid_samples w /\
      Evaluate.model (Evaluate.outer f) =
        map (fun _ => Evaluate.EvalMode) (Evaluate.model w) /\
      Evaluate.rerun (Evaluate.outer f) = Evaluate.DISABLED.
Proof.
  intros num Aux zero one add div args env all_reduce w H0.
  unfold Evaluate.evaluate, floordiv. rewrite H0.
  case_decide; [|contradiction]. eexists. split; [reflexivity|].
  repeat split.
Qed.

Lemma X19_zero_step_batch_raises_and_restores_nothing_witness :
  let args := Evaluate.mkArgs 2 2 0 1 None in
  let env := Evaluate.mkEnv (num := Z) (Aux := unit) true true
               (fun _ _ => []) (fun _ => false) None false tt in
  let w := Evaluate.mkWorld [Evaluate.TrainMode] Evaluate.VALIDATE_RESULTS 0 in
  exists f,
    Evaluate.evaluate 0%Z 1%Z Z.add Z.div args env (fun _ _ c => c) w =
      (f, raise ZeroDivisionError) /\
    Evaluate.model (Evaluate.outer f) = [Evaluate.EvalMode].
Proof.
  intros args env w.
  destruct (X19_zero_step_batch_raises_and_restores_nothing Z unit 0%Z 1%Z Z.add Z.div
              args env (fun _ _ c => c) w eq_refl) as (f & Hrun & _ & _ & Hm & _).
  exists f. split; [exact Hrun | exact Hm].
Defined.

(** X20. [forward_backward_func] is bound inside the loop only: with
    [eval_iters <= 0], no [non_loss_data_func], a
    [process_non_loss_data_func] and the last rank, line 191 raises
    [UnboundLocalError]; and whenever [evaluate] raises, the modules are
    left in evaluation mode and the rerun state machine disabled. *)
Theorem X20_collecting_without_an_iteration_raises :
  forall (num Aux : Type) (zero one : num) (add div : num -> num -> num)
         (args : Evaluate.Args) (env : Evaluate.Env num Aux)
         (all_reduce : Evaluate.ReduceOp -> Z -> Z -> Z) (w : Evaluate.world),
    ((Evaluate.micro_batch_size args * Evaluate.data_parallel_size args <> 0)%Z ->
     (Evaluate.eval_iters args <= 0)%Z ->
     Evaluate.non_loss_data_func env = None ->
     Evaluate.process_non_loss_data_func env = true ->
     Evaluate.is_last_rank env = true ->
     exists f,
       Evaluate.evaluate zero one add div args env all_reduce w =
         (f, raise UnboundLocalError)) /\
    (forall f e,
       Evaluate.evaluate zero one add div args env all_reduce w = (f, raise e) ->
       Evaluate.model (Evaluate.outer f) =
         map (fun _ => Evaluate.EvalMode) (Evaluate.model w) /\
       Evaluate.rerun (Evaluate.outer f) = Evaluate.DISABLED).
Proof.
  intros num Aux zero one add div args env all_reduce w. split.
  - apply evaluate_unbound_local.
  - intros f e. apply evaluate_raise_state.
Qed.

Lemma X20_collecting_without_an_iteration_raises_witness :
  let args := Evaluate.mkArgs 0 2 1 1 None in
  let env := Evaluate.mkEnv (num := Z) (Aux := unit) true true
               (fun _ _ => []) (fun _ => false) None true tt in
  let w := Evaluate.mkWorld [Evaluate.TrainMode] Evaluate.VALIDATE_RESULTS 0 in
  exists f,
    Evaluate.evaluate 0%Z 1%Z Z.add Z.div args env (fun _ _ c => c) w =
      (f, raise UnboundLocalError) /\
    Evaluate.rerun (Evaluate.outer f) = Evaluate.DISABLED.
Proof.
  intros args env w.
  pose proof (X20_collecting_without_an_iteration_raises Z unit 0%Z 1%Z Z.add Z.div
                args env (fun _ _ c => c) w) as [Hraise Hstate].
  destruct Hraise as [f Hrun].
  - simpl. lia.
  - simpl. lia.
  - reflexivity.
  - reflexivity.
  - reflexivity.
  - exists f. split; [exact Hrun|]. exact (proj2 (Hstate f _ Hrun)).
Defined.
